(** * Pipeline Docker image builds of ZenML

    A shallow embedding of [zenml.config.docker_configuration] and
    [zenml.utils.pipeline_docker_image_builder], and the properties of the
    image build that the specification states about them.

    Conventions of the embedding.
    - A Python [str] is a Rocq [string] holding its UTF-8 bytes; the byte-wise
      lexicographic order of [String.le] is then the code-point order that
      Python's [sorted] uses.
    - [Optional[T]] is [option T]; a Python condition [if x:] is [truthy x].
    - A [set] is a [gset]; a [dict] whose iteration order is observed is an
      association list in insertion order, the run record is a [gmap].
    - Every call that leaves the module (docker_utils, subprocess, fileio,
      the integration registry, the stack, the container registry) appends an
      event to a log and takes its outcome from a [World], which may depend on
      everything that happened before the call.
    - Calls of [logger] do not influence control flow or results and are left
      out of the builder; the formatter of [zenml.logger] is embedded on its
      own at the end. *)

From Stdlib Require Import Ascii.
From stdpp Require Import base option list gmap strings sorting.

Set Warnings "-clear-no-such-hyp".

(** ** What the interpreter and the packages around the module provide *)

(** [Any] is the type of the untyped values of [Dict[str, Any]]; the other
    fields are the builtins and constants that the module reads but does not
    define. *)
Record Runtime := {
  Any : Type;
  format_value : Any → string;          (* [f"{value}"] *)
  str_to_any : string → Any;            (* a [str] seen as a plain object *)
  str_upper : string → string;          (* [str.upper] *)
  zenml_version : string;               (* [zenml.__version__] *)
  version_info_major : string;          (* [f"{sys.version_info.major}"] *)
  version_info_minor : string;          (* [f"{sys.version_info.minor}"] *)
  ENV_ZENML_CONFIG_PATH : string        (* [zenml.constants] *)
}.

Definition newline : string := String "010"%char "".

(** ["\n".join(l)] and similar *)
Definition str_join (sep : string) (l : list string) : string :=
  String.concat sep l.

(** ** Truthiness *)

Class Truthy (A : Type) := truthy : A → bool.
Global Hint Mode Truthy ! : typeclass_instances.

Global Instance bool_truthy : Truthy bool := λ b, b.
Global Instance string_truthy : Truthy string :=
  λ s, match s with "" => false | _ => true end.
Global Instance list_truthy {A} : Truthy (list A) :=
  λ l, match l with [] => false | _ => true end.
Global Instance option_truthy {A} `{Truthy A} : Truthy (option A) :=
  λ o, match o with None => false | Some a => truthy a end.
Global Instance gset_truthy : Truthy (gset string) :=
  λ X, negb (bool_decide (X = ∅)).

(** [any([...])] *)
Definition any (l : list bool) : bool := foldr orb false l.

(** ** docker_configuration.py *)

Inductive PythonEnvironmentExportMethod := PIP_FREEZE | POETRY_EXPORT.

Definition command (m : PythonEnvironmentExportMethod) : string :=
  match m with
  | PIP_FREEZE => "pip freeze"
  | POETRY_EXPORT => "poetry export --format=requirements.txt"
  end.

(** Members of an [Enum] are always true. *)
Global Instance method_truthy : Truthy PythonEnvironmentExportMethod :=
  λ _, true.

(** [Union[str, List[str]]]: a path to a requirements file, or the packages *)
Inductive Requirements :=
| RequirementsFile (path : string)
| RequirementsList (packages : list string).

Global Instance requirements_truthy : Truthy Requirements :=
  λ r, match r with
       | RequirementsFile p => truthy p
       | RequirementsList l => truthy l
       end.

Section Builder.
Context (rt : Runtime).

Record DockerConfiguration := {
  parent_image : option string;
  dockerfile : option string;
  build_context_root : option string;
  build_options : list (string * Any rt);
  target_repository : string;
  replicate_local_python_environment : option PythonEnvironmentExportMethod;
  requirements : option Requirements;
  required_integrations : list string;
  install_stack_requirements : bool;
  environment : list (string * Any rt);
  dockerignore : option string;
  copy_files : bool;
  copy_profile : bool
}.

(** [DockerConfiguration()]: every field at its declared default *)
Definition DockerConfiguration_default : DockerConfiguration := {|
  parent_image := None;
  dockerfile := None;
  build_context_root := None;
  build_options := [];
  target_repository := "zenml";
  replicate_local_python_environment := None;
  requirements := None;
  required_integrations := [];
  install_stack_requirements := true;
  environment := [];
  dockerignore := None;
  copy_files := true;
  copy_profile := true
|}.

(** ** pipeline_docker_image_builder.py: constants *)

Definition DOCKER_IMAGE_WORKDIR : string := "/app".
Definition DOCKER_IMAGE_ZENML_CONFIG_DIR : string := ".zenconfig".
Definition DOCKER_IMAGE_ZENML_CONFIG_PATH : string :=
  DOCKER_IMAGE_WORKDIR +:+ "/" +:+ DOCKER_IMAGE_ZENML_CONFIG_DIR.

Definition DEFAULT_DOCKER_PARENT_IMAGE : string :=
  "zenmldocker/zenml:" +:+ zenml_version rt +:+ "-" +:+
  "py" +:+ version_info_major rt +:+ "." +:+ version_info_minor rt.

(** ** [_generate_zenml_pipeline_dockerfile]

    [lines.append(x)] is [lines ++ [x]], a [for] loop over a sequence is a
    left fold with the list of lines as accumulator. *)
Definition _generate_zenml_pipeline_dockerfile
    (parent_image : string) (docker_configuration : DockerConfiguration)
    (requirements_files : list string) (entrypoint : option string)
  : list string :=
  let lines :=
    ["FROM " +:+ parent_image; "WORKDIR " +:+ DOCKER_IMAGE_WORKDIR] in
  let lines :=
    if copy_profile docker_configuration
    then lines ++ ["ENV " +:+ ENV_ZENML_CONFIG_PATH rt +:+ "=" +:+
                   DOCKER_IMAGE_ZENML_CONFIG_PATH]
    else lines in
  let lines :=
    foldl (λ lines '(key, value),
             lines ++ ["ENV " +:+ str_upper rt key +:+ "=" +:+
                       format_value rt value])
          lines (environment docker_configuration) in
  let lines :=
    foldl (λ lines file,
             (lines ++ ["COPY " +:+ file +:+ " ."])
                    ++ ["RUN pip install --no-cache-dir -r " +:+ file])
          lines requirements_files in
  let lines :=
    if copy_files docker_configuration then lines ++ ["COPY . ."]
    else if copy_profile docker_configuration
         then lines ++ ["COPY " +:+ DOCKER_IMAGE_ZENML_CONFIG_DIR +:+ " ."]
         else lines in
  let lines := lines ++ ["RUN chmod -R a+rw ."] in
  let lines :=
    match entrypoint with
    | Some e => if truthy e then lines ++ ["ENTRYPOINT " +:+ e] else lines
    | None => lines
    end in
  lines.

(** The instruction groups of a generated Dockerfile, one definition per
    group, used to state the layout of the output. *)
Definition env_line (kv : string * Any rt) : string :=
  "ENV " +:+ str_upper rt kv.1 +:+ "=" +:+ format_value rt kv.2.

Definition install_pair (file : string) : list string :=
  ["COPY " +:+ file +:+ " ."; "RUN pip install --no-cache-dir -r " +:+ file].

Definition profile_env_lines (c : DockerConfiguration) : list string :=
  if copy_profile c
  then ["ENV " +:+ ENV_ZENML_CONFIG_PATH rt +:+ "=" +:+
        DOCKER_IMAGE_ZENML_CONFIG_PATH]
  else [].

Definition copy_lines (c : DockerConfiguration) : list string :=
  if copy_files c then ["COPY . ."]
  else if copy_profile c then ["COPY " +:+ DOCKER_IMAGE_ZENML_CONFIG_DIR +:+ " ."]
  else [].

Definition entrypoint_lines (entrypoint : option string) : list string :=
  match entrypoint with
  | Some e => if truthy e then ["ENTRYPOINT " +:+ e] else []
  | None => []
  end.

(** ** Exceptions and results *)

(** What a collaborator can raise. [subprocess.CalledProcessError] is the one
    exception class the module catches; every other one is only propagated
    and is kept by its class name. *)
Inductive Failure :=
| CalledProcessError
| OtherError (class_name : string).

Inductive Exc :=
| InsufficientBuildConfiguration      (* the [ValueError] of [build_docker_image] *)
| UnableToExportLocalPackages         (* the [RuntimeError] of [_gather_requirements_files] *)
| NoContainerRegistry (stack_name : string)
                                      (* the [RuntimeError] of [build_and_push_docker_image] *)
| Propagated (f : Failure).           (* raised by a collaborator *)

Inductive result (A : Type) :=
| Ok (a : A)
| Raise (e : Exc).
Global Arguments Ok {A} a.
Global Arguments Raise {A} e.

(** Outcome of one call of a collaborator *)
Inductive outcome (A : Type) :=
| Returns (a : A)
| Fails (f : Failure).
Global Arguments Returns {A} a.
Global Arguments Fails {A} f.

Definition result_of_outcome {A} (o : outcome A) : result A :=
  match o with
  | Returns a => Ok a
  | Fails f => Raise (Propagated f)
  end.

(** ** The stack *)

Record ContainerRegistry := { uri : string }.

Record Stack := {
  stack_name : string;                            (* [stack.name] *)
  container_registry : option ContainerRegistry   (* [stack.container_registry] *)
}.

(** ** Calls of collaborators *)

(** The [dockerfile] argument of [docker_utils.build_image]: a path, or the
    lines of a generated Dockerfile *)
Inductive DockerfileSource :=
| DockerfilePath (path : string)
| DockerfileLines (lines : list string).

(** The value of a keyword argument *)
Inductive Value :=
| VNone                                   (* [None] *)
| VStr (s : string)
| VBool (b : bool)
| VFiles (files : list (string * string)) (* a list of pairs of strings *)
| VAny (a : Any rt).                      (* a value of [Dict[str, Any]] *)

(** [Optional[str]] as the value of a keyword *)
Definition optional_str (x : option string) : Value :=
  match x with
  | Some s => VStr s
  | None => VNone
  end.

(** The keyword arguments of one call of [docker_utils.build_image]. Both
    calls of the module pass [image_name], [dockerfile] and
    [build_context_root] by name; [call_keywords] holds every other keyword
    argument of the call with its value, in the order of the call, whether
    the call names it or a [**] expansion brings it. A keyword has no other
    place in the record. *)
Record BuildImageCall := {
  call_image_name : string;
  call_dockerfile : DockerfileSource;
  call_build_context_root : option string;
  call_keywords : list (string * Value)
}.

(** The value that a call passes for a keyword, if it passes the keyword *)
Fixpoint keyword_value (key : string) (keywords : list (string * Value))
  : option Value :=
  match keywords with
  | [] => None
  | (k, v) :: keywords' =>
      if bool_decide (k = key) then Some v else keyword_value key keywords'
  end.

Definition call_pull (c : BuildImageCall) : option Value :=
  keyword_value "pull" (call_keywords c).
Definition call_dockerignore (c : BuildImageCall) : option Value :=
  keyword_value "dockerignore" (call_keywords c).
Definition call_extra_files (c : BuildImageCall) : option Value :=
  keyword_value "extra_files" (call_keywords c).

(** The keywords that the call of the custom build passes by name *)
Definition named_keywords : list string :=
  ["image_name"; "dockerfile"; "build_context_root"].

(** [f(image_name=..., dockerfile=..., build_context_root=..., **options)]
    cannot bind its arguments when [options] holds one of the keywords that
    the call passes by name. *)
Definition repeats_keyword (options : list (string * Any rt)) : bool :=
  bool_decide (Exists (λ kv, kv.1 ∈ named_keywords) options).

(** What [**options] adds to the keywords of a call *)
Definition expand (options : list (string * Any rt)) : list (string * Value) :=
  (λ kv, (kv.1, VAny kv.2)) <$> options.

(** An event is one call of a collaborator together with its outcome. A call
    whose arguments cannot be bound is a call that fails with [TypeError],
    whatever the collaborator would have done. *)
Inductive Event :=
| build_image_call (c : BuildImageCall) (answer : outcome unit)
| tag_image_call (image_name target : string) (answer : outcome unit)
| is_local_image_call (image_name : string) (answer : outcome bool)
| check_output_call (cmd : string) (answer : outcome string)
| read_file_contents_as_string_call (path : string) (answer : outcome string)
| select_integration_requirements_call
    (integration : string) (answer : outcome (list string))
| stack_requirements_call (stack : Stack) (answer : outcome (gset string))
| get_source_root_path_call (answer : outcome string)
| copy_active_configuration_call
    (config_path load_config_path : string) (answer : outcome unit)
| rmtree_call (path : string) (answer : outcome unit)
| push_image_call
    (registry : ContainerRegistry) (image_name : string)
    (answer : outcome string).

(** The collaborators. Each answer may depend on the events so far. *)
Record World := {
  build_image : list Event → BuildImageCall → outcome unit;
  tag_image : list Event → string → string → outcome unit;
  is_local_image : list Event → string → outcome bool;
  check_output : list Event → string → outcome string;
  read_file_contents_as_string : list Event → string → outcome string;
  select_integration_requirements : list Event → string → outcome (list string);
  stack_requirements : list Event → Stack → outcome (gset string);
  get_source_root_path : list Event → outcome string;
  copy_active_configuration : list Event → string → string → outcome unit;
  rmtree : list Event → string → outcome unit;
  push_image : list Event → ContainerRegistry → string → outcome string
}.

Context (w : World).

(** ** Computations: given the events so far, the new events and a result *)

Definition M (A : Type) : Type := list Event → list Event * result A.

Definition M_ret {A} (a : A) : M A := λ _, ([], Ok a).

Definition M_bind {A B} (f : A → M B) (m : M A) : M B := λ h,
  match m h with
  | (t1, Ok a) => match f a (h ++ t1) with (t2, r) => (t1 ++ t2, r) end
  | (t1, Raise e) => (t1, Raise e)
  end.

Global Instance M_mret : MRet M := @M_ret.
Global Instance M_mbind : MBind M := @M_bind.
Global Instance M_fmap : FMap M := λ A B f m, M_bind (λ a, M_ret (f a)) m.

Definition raise {A} (e : Exc) : M A := λ _, ([], Raise e).

(** [try: m except ...: handler] *)
Definition try_except {A} (m : M A) (handler : Exc → M A) : M A := λ h,
  match m h with
  | (t1, Raise e) => match handler e (h ++ t1) with (t2, r) => (t1 ++ t2, r) end
  | (t1, Ok a) => (t1, Ok a)
  end.

(** [try: m finally: final]: [final] runs however [m] ends; an exception of
    [final] replaces the outcome of [m]. *)
Definition try_finally {A} (m : M A) (final : M unit) : M A := λ h,
  match m h with
  | (t1, r) =>
      match final (h ++ t1) with
      | (t2, Ok _) => (t1 ++ t2, r)
      | (t2, Raise e) => (t1 ++ t2, Raise e)
      end
  end.

(** One call of a collaborator: take the answer of the world and log the
    call with it. *)
Definition perform {A}
    (answer : list Event → outcome A) (event : outcome A → Event) : M A :=
  λ h, let a := answer h in ([event a], result_of_outcome a).

Definition docker_utils_build_image (c : BuildImageCall) : M unit :=
  perform (λ h, build_image w h c) (build_image_call c).
(** [docker_utils.build_image(..., **options)], where [c] holds the keywords
    that [options] expands to *)
Definition docker_utils_build_image_expanding
    (c : BuildImageCall) (options : list (string * Any rt)) : M unit :=
  perform (λ h, if repeats_keyword options
                then Fails (OtherError "TypeError")
                else build_image w h c)
          (build_image_call c).
Definition docker_utils_tag_image (image_name target : string) : M unit :=
  perform (λ h, tag_image w h image_name target)
          (tag_image_call image_name target).
Definition docker_utils_is_local_image (image_name : string) : M bool :=
  perform (λ h, is_local_image w h image_name)
          (is_local_image_call image_name).
Definition subprocess_check_output (cmd : string) : M string :=
  perform (λ h, check_output w h cmd) (check_output_call cmd).
Definition io_utils_read_file_contents_as_string (path : string) : M string :=
  perform (λ h, read_file_contents_as_string w h path)
          (read_file_contents_as_string_call path).
Definition integration_registry_select_integration_requirements
    (integration : string) : M (list string) :=
  perform (λ h, select_integration_requirements w h integration)
          (select_integration_requirements_call integration).
Definition Stack_requirements (stack : Stack) : M (gset string) :=
  perform (λ h, stack_requirements w h stack) (stack_requirements_call stack).
Definition source_utils_get_source_root_path : M string :=
  perform (get_source_root_path w) get_source_root_path_call.
Definition GlobalConfiguration_copy_active_configuration
    (config_path load_config_path : string) : M unit :=
  perform (λ h, copy_active_configuration w h config_path load_config_path)
          (copy_active_configuration_call config_path load_config_path).
Definition fileio_rmtree (path : string) : M unit :=
  perform (λ h, rmtree w h path) (rmtree_call path).
Definition ContainerRegistry_push_image
    (registry : ContainerRegistry) (image_name : string) : M string :=
  perform (λ h, push_image w h registry image_name)
          (push_image_call registry image_name).

(** ** Small pieces of Python *)

(** An optional string that passes [if x:], as the string it holds *)
Definition if_truthy (x : option string) : option string :=
  match x with
  | Some s => if truthy s then Some s else None
  | None => None
  end.

(** [a or b] for an optional string [a] and a string [b] *)
Definition or_else (a : option string) (b : string) : string :=
  match if_truthy a with
  | Some s => s
  | None => b
  end.

Fixpoint ends_with_slash (s : string) : bool :=
  match s with
  | "" => false
  | String c "" => bool_decide (c = "/"%char)
  | String _ s' => ends_with_slash s'
  end.

Definition starts_with_slash (s : string) : bool :=
  match s with
  | String c _ => bool_decide (c = "/"%char)
  | "" => false
  end.

(** [os.path.join(a, b)] of [posixpath] *)
Definition os_path_join (a b : string) : string :=
  if starts_with_slash b then b
  else if negb (truthy a) || ends_with_slash a then a +:+ b
  else a +:+ "/" +:+ b.

(** [sorted(s)] for a set of strings *)
Definition sorted (X : gset string) : list string :=
  merge_sort String.le (elements X).

(** ** [_include_active_profile] *)

(** A context manager takes the body of its [with] statement. *)
Definition ContextManager : Type := ∀ A, M A → M A.

Definition nullcontext : ContextManager := λ A body, body.

(** The generator runs up to [yield] on entry, the body of the [with]
    statement runs at the [yield] (an exception of the body is thrown into the
    generator there), and the [finally] clause runs on the way out. *)
Definition _include_active_profile
    (build_context_root : string) (load_config_path : string)
  : ContextManager := λ A body,
  let config_path :=
    os_path_join build_context_root DOCKER_IMAGE_ZENML_CONFIG_DIR in
  try_finally
    (GlobalConfiguration_copy_active_configuration config_path load_config_path;;
     body)
    (fileio_rmtree config_path).

(** ** [PipelineDockerImageBuilder] *)

Record PipelineDockerImageBuilder := {
  docker_parent_image : option string
}.

Definition _gather_requirements_files
    (docker_configuration : DockerConfiguration) (stack : Stack)
  : M (list (string * string)) :=
  let requirements_files : list (string * string) := [] in
  (* requirements file for the local environment, if configured *)
  requirements_files ←
    match replicate_local_python_environment docker_configuration with
    | Some method =>
        local_requirements ←
          try_except
            (subprocess_check_output (command method))
            (λ e, match e with
                  | Propagated CalledProcessError =>
                      raise UnableToExportLocalPackages
                  | _ => raise e
                  end);
        mret (requirements_files ++
              [(".zenml_local_requirements", local_requirements)])
    | None => mret requirements_files
    end;
  (* user-defined requirements *)
  user_requirements ←
    match requirements docker_configuration with
    | Some (RequirementsFile path) =>
        Some <$> io_utils_read_file_contents_as_string path
    | Some (RequirementsList packages) =>
        mret (Some (str_join newline packages))
    | None => mret None
    end;
  let requirements_files :=
    match user_requirements with
    | Some text =>
        if truthy text
        then requirements_files ++ [(".zenml_user_requirements", text)]
        else requirements_files
    | None => requirements_files
    end in
  (* requirements of all required integrations *)
  selected ←
    mapM integration_registry_select_integration_requirements
         (required_integrations docker_configuration);
  let integration_requirements : gset string := list_to_set (concat selected) in
  integration_requirements ←
    (if install_stack_requirements docker_configuration
     then stack_reqs ← Stack_requirements stack;
          mret (integration_requirements ∪ stack_reqs)
     else mret integration_requirements);
  let requirements_files :=
    if truthy integration_requirements
    then
      let integration_requirements_list := sorted integration_requirements in
      let integration_requirements_file :=
        str_join newline integration_requirements_list in
      requirements_files ++
        [(".zenml_integration_requirements", integration_requirements_file)]
    else requirements_files in
  mret requirements_files.

Definition requires_zenml_build
    (docker_configuration : DockerConfiguration) (entrypoint : option string)
  : bool :=
  any [ truthy (requirements docker_configuration);
        truthy (required_integrations docker_configuration);
        truthy (replicate_local_python_environment docker_configuration);
        truthy (install_stack_requirements docker_configuration);
        truthy (environment docker_configuration);
        truthy (copy_files docker_configuration);
        truthy (copy_profile docker_configuration);
        truthy entrypoint ].

Definition intermediate_image_name (pipeline_name : string) : string :=
  "zenml-intermediate-build:" +:+ pipeline_name.

Definition build_docker_image
    (self : PipelineDockerImageBuilder)
    (target_image_name pipeline_name : string)
    (docker_configuration : DockerConfiguration) (stack : Stack)
    (entrypoint : option string)
  : M unit :=
  let requires_zenml_build :=
    requires_zenml_build docker_configuration entrypoint in
  let parent_image :=
    or_else (parent_image docker_configuration)
      (or_else (docker_parent_image self) DEFAULT_DOCKER_PARENT_IMAGE) in
  parent_image ←
    match if_truthy (dockerfile docker_configuration) with
    | Some custom_dockerfile =>
        let '(user_image_name, parent_image) :=
          if requires_zenml_build
          then (intermediate_image_name pipeline_name,
                intermediate_image_name pipeline_name)
          else (target_image_name, parent_image) in
        docker_utils_build_image_expanding {|
          call_image_name := user_image_name;
          call_dockerfile := DockerfilePath custom_dockerfile;
          call_build_context_root := build_context_root docker_configuration;
          call_keywords := expand (build_options docker_configuration)
        |} (build_options docker_configuration);;
        mret parent_image
    | None =>
        if negb requires_zenml_build then
          if bool_decide (parent_image = DEFAULT_DOCKER_PARENT_IMAGE)
          then raise InsufficientBuildConfiguration
          else docker_utils_tag_image parent_image target_image_name;;
               mret parent_image
        else mret parent_image
    end;
  if requires_zenml_build then
    requirement_files ← _gather_requirements_files docker_configuration stack;
    let requirements_file_names := fst <$> requirement_files in
    let dockerfile :=
      _generate_zenml_pipeline_dockerfile
        parent_image docker_configuration requirements_file_names entrypoint in
    pull_parent_image ←
      (if bool_decide (parent_image = DEFAULT_DOCKER_PARENT_IMAGE)
       then mret false
       else negb <$> docker_utils_is_local_image parent_image);
    let requires_build_context :=
      copy_files docker_configuration || copy_profile docker_configuration in
    build_context_root ←
      (if requires_build_context
       then Some <$> source_utils_get_source_root_path
       else mret None);
    let maybe_include_active_profile : ContextManager :=
      if copy_profile docker_configuration
      then match build_context_root with
           | Some root =>
               _include_active_profile root DOCKER_IMAGE_ZENML_CONFIG_PATH
           | None =>
               (* [os.path.join(None, ...)]; not reached, since
                  [copy_profile] makes [requires_build_context] true *)
               λ A _, raise (Propagated (OtherError "TypeError"))
           end
      else nullcontext in
    maybe_include_active_profile _
      (docker_utils_build_image {|
         call_image_name := target_image_name;
         call_dockerfile := DockerfileLines dockerfile;
         call_build_context_root := build_context_root;
         call_keywords :=
           [("dockerignore", optional_str (dockerignore docker_configuration));
            ("extra_files", VFiles requirement_files);
            ("pull", VBool pull_parent_image)]
       |})
  else mret tt.

(** The run record is a dictionary that the caller shares with the method;
    its state after the call is returned next to the events and the result,
    also when the call raises. *)
Definition build_and_push_docker_image
    (self : PipelineDockerImageBuilder) (pipeline_name : string)
    (docker_configuration : DockerConfiguration) (stack : Stack)
    (runtime_configuration : gmap string (Any rt))
    (entrypoint : option string)
  : list Event → list Event * gmap string (Any rt) * result string := λ h,
  match container_registry stack with
  | None =>
      ([], runtime_configuration, Raise (NoContainerRegistry (stack_name stack)))
  | Some container_registry =>
      let target_image_name :=
        uri container_registry +:+ "/" +:+
        target_repository docker_configuration +:+ ":" +:+ pipeline_name in
      match build_docker_image self target_image_name pipeline_name
              docker_configuration stack entrypoint h with
      | (t1, Raise e) => (t1, runtime_configuration, Raise e)
      | (t1, Ok _) =>
          match ContainerRegistry_push_image container_registry
                  target_image_name (h ++ t1) with
          | (t2, Raise e) => (t1 ++ t2, runtime_configuration, Raise e)
          | (t2, Ok repo_digest) =>
              (t1 ++ t2,
               <["docker_image" := str_to_any rt repo_digest]>
                 runtime_configuration,
               Ok repo_digest)
          end
      end
  end.

(** ** Reading a log *)

Definition build_calls (t : list Event) : list BuildImageCall :=
  omap (λ e, match e with build_image_call c _ => Some c | _ => None end) t.

Definition tag_calls (t : list Event) : list (string * string) :=
  omap (λ e, match e with
             | tag_image_call image target _ => Some (image, target)
             | _ => None
             end) t.

Definition copy_calls (t : list Event) : list string :=
  omap (λ e, match e with
             | copy_active_configuration_call config_path _ _ => Some config_path
             | _ => None
             end) t.

Definition rmtree_calls (t : list Event) : list string :=
  omap (λ e, match e with rmtree_call path _ => Some path | _ => None end) t.

Definition push_calls (t : list Event) : list string :=
  omap (λ e, match e with push_image_call _ image _ => Some image | _ => None end) t.

(** A build call whose Dockerfile was generated, not read from a path *)
Definition is_synthesis (c : BuildImageCall) : bool :=
  match call_dockerfile c with
  | DockerfileLines _ => true
  | DockerfilePath _ => false
  end.

(** The parent image that the generated Dockerfile starts from *)
Definition effective_parent_image
    (self : PipelineDockerImageBuilder) (pipeline_name : string)
    (docker_configuration : DockerConfiguration) : string :=
  match if_truthy (dockerfile docker_configuration) with
  | Some _ => intermediate_image_name pipeline_name
  | None =>
      or_else (parent_image docker_configuration)
        (or_else (docker_parent_image self) DEFAULT_DOCKER_PARENT_IMAGE)
  end.

End Builder.

(** The runtime is read off the configuration, the world or the events. *)
Arguments parent_image {rt} _.
Arguments dockerfile {rt} _.
Arguments build_context_root {rt} _.
Arguments build_options {rt} _.
Arguments target_repository {rt} _.
Arguments replicate_local_python_environment {rt} _.
Arguments requirements {rt} _.
Arguments required_integrations {rt} _.
Arguments install_stack_requirements {rt} _.
Arguments environment {rt} _.
Arguments dockerignore {rt} _.
Arguments copy_files {rt} _.
Arguments copy_profile {rt} _.
Arguments call_image_name {rt} _.
Arguments call_dockerfile {rt} _.
Arguments call_build_context_root {rt} _.
Arguments VNone {rt}.
Arguments VStr {rt} _.
Arguments VBool {rt} _.
Arguments VFiles {rt} _.
Arguments VAny {rt} _.
Arguments optional_str {rt} _.
Arguments call_keywords {rt} _.
Arguments keyword_value {rt} _ _.
Arguments call_dockerignore {rt} _.
Arguments call_extra_files {rt} _.
Arguments call_pull {rt} _.
Arguments repeats_keyword {rt} _.
Arguments expand {rt} _.
Arguments docker_utils_build_image_expanding {rt} _ _ _ _.
Arguments build_image_call {rt} _ _.
Arguments tag_image_call {rt} _ _ _.
Arguments is_local_image_call {rt} _ _.
Arguments check_output_call {rt} _ _.
Arguments read_file_contents_as_string_call {rt} _ _.
Arguments select_integration_requirements_call {rt} _ _.
Arguments stack_requirements_call {rt} _ _.
Arguments get_source_root_path_call {rt} _.
Arguments copy_active_configuration_call {rt} _ _ _.
Arguments rmtree_call {rt} _ _.
Arguments push_image_call {rt} _ _ _.
Arguments build_image {rt} _ _ _.
Arguments tag_image {rt} _ _ _ _.
Arguments is_local_image {rt} _ _ _.
Arguments check_output {rt} _ _ _.
Arguments read_file_contents_as_string {rt} _ _ _.
Arguments select_integration_requirements {rt} _ _ _.
Arguments stack_requirements {rt} _ _ _.
Arguments get_source_root_path {rt} _ _.
Arguments copy_active_configuration {rt} _ _ _ _.
Arguments rmtree {rt} _ _ _.
Arguments push_image {rt} _ _ _ _.
Arguments perform {rt A} _ _ _.
Arguments docker_utils_build_image {rt} _ _ _.
Arguments docker_utils_tag_image {rt} _ _ _ _.
Arguments docker_utils_is_local_image {rt} _ _ _.
Arguments subprocess_check_output {rt} _ _ _.
Arguments io_utils_read_file_contents_as_string {rt} _ _ _.
Arguments integration_registry_select_integration_requirements {rt} _ _ _.
Arguments Stack_requirements {rt} _ _ _.
Arguments source_utils_get_source_root_path {rt} _ _.
Arguments GlobalConfiguration_copy_active_configuration {rt} _ _ _ _.
Arguments fileio_rmtree {rt} _ _ _.
Arguments ContainerRegistry_push_image {rt} _ _ _ _.
Arguments _include_active_profile {rt} _ _ _ _ _ _.
Arguments nullcontext {rt} _ _ _.
Arguments raise {rt A} _ _.
Arguments try_except {rt A} _ _ _.
Arguments try_finally {rt A} _ _ _.
Arguments _generate_zenml_pipeline_dockerfile {rt} _ _ _ _.
Arguments env_line {rt} _.
Arguments profile_env_lines {rt} _.
Arguments copy_lines {rt} _.
Arguments requires_zenml_build {rt} _ _.
Arguments effective_parent_image {rt} _ _ _.
Arguments _gather_requirements_files {rt} _ _ _ _.
Arguments build_docker_image {rt} _ _ _ _ _ _ _ _.
Arguments build_and_push_docker_image {rt} _ _ _ _ _ _ _ _.
Arguments build_calls {rt} _.
Arguments tag_calls {rt} _.
Arguments copy_calls {rt} _.
Arguments rmtree_calls {rt} _.
Arguments push_calls {rt} _.
Arguments is_synthesis {rt} _.

(** * Concrete inputs

    CPython 3.8 with ZenML 0.13.2, environment values that are strings, and
    worlds in which the collaborators answer the same way at every moment.
    The properties above hold for every runtime; this one only serves to run
    the code on the inputs below. *)

Definition upper_ascii (c : ascii) : ascii :=
  let n := nat_of_ascii c in
  if (97 <=? n)%nat && (n <=? 122)%nat then ascii_of_nat (n - 32) else c.

(** [str.upper] on ASCII text: the letters [a] to [z] are mapped, every
    other byte is kept. On a string with other letters Python also maps
    those, by tables that are not embedded here; the keys of the concrete
    inputs below are ASCII. *)
Fixpoint ascii_upper (s : string) : string :=
  match s with
  | "" => ""
  | String c s' => String (upper_ascii c) (ascii_upper s')
  end.

Definition cpython : Runtime := {|
  Any := string;
  format_value := λ s, s;
  str_to_any := λ s, s;
  str_upper := ascii_upper;           (* the keys below are ASCII *)
  zenml_version := "0.13.2";
  version_info_major := "3";
  version_info_minor := "8";
  ENV_ZENML_CONFIG_PATH := "ZENML_CONFIG_PATH"
|}.

(** A world given by the outcome of image builds, the output of the export
    command, the outcome of the push, and what the stack requires; the local
    Docker daemon holds no image, the registry of integrations knows
    [kubernetes] and [airflow]. *)
Definition world
    (build : BuildImageCall cpython → outcome unit)
    (export : outcome string) (push : outcome string)
    (stack_reqs : gset string) : World cpython := {|
  build_image := λ _ c, build c;
  tag_image := λ _ _ _, Returns tt;
  is_local_image := λ _ _, Returns false;
  check_output := λ _ _, export;
  read_file_contents_as_string := λ _ _, Returns "numpy";
  select_integration_requirements := λ _ integration,
    if bool_decide (integration = "kubernetes")
    then Returns ["kubernetes==18.20.0"]
    else if bool_decide (integration = "airflow")
    then Returns ["apache-airflow==2.2.0"; "kubernetes==18.20.0"]
    else Fails (OtherError "KeyError");
  stack_requirements := λ _ _, Returns stack_reqs;
  get_source_root_path := λ _, Returns "/repo";
  copy_active_configuration := λ _ _ _, Returns tt;
  rmtree := λ _ _, Returns tt;
  push_image := λ _ _ _, push
|}.

(** Everything succeeds. *)
Definition calm : World cpython :=
  world (λ _, Returns tt) (Returns "") (Returns "sha256:0a1b") ∅.

(** Building a generated Dockerfile fails. *)
Definition failing_build : World cpython :=
  world (λ c, if is_synthesis c
              then Fails (OtherError "BuildError") else Returns tt)
        (Returns "") (Returns "sha256:0a1b") ∅.

(** Building the custom Dockerfile fails. *)
Definition failing_custom_build : World cpython :=
  world (λ c, if is_synthesis c
              then Returns tt else Fails (OtherError "BuildError"))
        (Returns "") (Returns "sha256:0a1b") ∅.

(** The registry refuses the push. *)
Definition failing_push : World cpython :=
  world (λ _, Returns tt) (Returns "") (Fails (OtherError "PushError")) ∅.

Definition local_stack : Stack := {|
  stack_name := "local";
  container_registry := Some {| uri := "localhost:5000" |}
|}.

Definition stack_without_registry : Stack := {|
  stack_name := "default";
  container_registry := None
|}.

Definition builder : PipelineDockerImageBuilder := {|
  docker_parent_image := None
|}.

(** No field asks for anything, and no Dockerfile or parent image is given. *)
Definition bare : DockerConfiguration cpython := {|
  parent_image := None;
  dockerfile := None;
  build_context_root := None;
  build_options := [];
  target_repository := "zenml";
  replicate_local_python_environment := None;
  requirements := None;
  required_integrations := [];
  install_stack_requirements := false;
  environment := [];
  dockerignore := None;
  copy_files := false;
  copy_profile := false
|}.

(** [bare], with the default [install_stack_requirements=True] *)
Definition bare_with_stack_requirements : DockerConfiguration cpython := {|
  parent_image := None;
  dockerfile := None;
  build_context_root := None;
  build_options := [];
  target_repository := "zenml";
  replicate_local_python_environment := None;
  requirements := None;
  required_integrations := [];
  install_stack_requirements := true;
  environment := [];
  dockerignore := None;
  copy_files := false;
  copy_profile := false
|}.

(** [bare], with a snapshot of the local environment *)
Definition bare_with_pip_freeze : DockerConfiguration cpython := {|
  parent_image := None;
  dockerfile := None;
  build_context_root := None;
  build_options := [];
  target_repository := "zenml";
  replicate_local_python_environment := Some PIP_FREEZE;
  requirements := None;
  required_integrations := [];
  install_stack_requirements := false;
  environment := [];
  dockerignore := None;
  copy_files := false;
  copy_profile := false
|}.

(** A custom Dockerfile and nothing else *)
Definition custom_only : DockerConfiguration cpython := {|
  parent_image := None;
  dockerfile := Some "Dockerfile.custom";
  build_context_root := None;
  build_options := [];
  target_repository := "zenml";
  replicate_local_python_environment := None;
  requirements := None;
  required_integrations := [];
  install_stack_requirements := false;
  environment := [];
  dockerignore := None;
  copy_files := false;
  copy_profile := false
|}.

(** A custom Dockerfile and one environment variable *)
Definition custom_with_env : DockerConfiguration cpython := {|
  parent_image := None;
  dockerfile := Some "Dockerfile.custom";
  build_context_root := None;
  build_options := [];
  target_repository := "zenml";
  replicate_local_python_environment := None;
  requirements := None;
  required_integrations := [];
  install_stack_requirements := false;
  environment := [("a", "1" : Any cpython)];
  dockerignore := None;
  copy_files := false;
  copy_profile := false
|}.

(** Two integrations that share a requirement *)
Definition two_integrations : DockerConfiguration cpython := {|
  parent_image := None;
  dockerfile := None;
  build_context_root := None;
  build_options := [];
  target_repository := "zenml";
  replicate_local_python_environment := None;
  requirements := Some (RequirementsList ["numpy==1.2"; "pandas"]);
  required_integrations := ["kubernetes"; "airflow"];
  install_stack_requirements := true;
  environment := [];
  dockerignore := None;
  copy_files := false;
  copy_profile := false
|}.

(** * Properties *)

Section Properties.
Context (rt : Runtime) (w : World rt).

Local Abbreviation M := (M rt).
Local Abbreviation Event := (Event rt).

(** ** What a log says about the requirement sources *)

(** The failure that an event records, if its call failed *)
Definition event_failure (e : Event) : option Failure :=
  let of_outcome {A} (o : outcome A) :=
    match o with Fails f => Some f | Returns _ => None end in
  match e with
  | build_image_call _ a | tag_image_call _ _ a
  | copy_active_configuration_call _ _ a | rmtree_call _ a => of_outcome a
  | is_local_image_call _ a => of_outcome a
  | check_output_call _ a | read_file_contents_as_string_call _ a
  | get_source_root_path_call a | push_image_call _ _ a => of_outcome a
  | select_integration_requirements_call _ a => of_outcome a
  | stack_requirements_call _ a => of_outcome a
  end.

(** Some call of the log failed. *)
Definition some_call_failed (t : list Event) : Prop :=
  ∃ e f, e ∈ t ∧ event_failure e = Some f.

Definition local_file_name : string := ".zenml_local_requirements".
Definition user_file_name : string := ".zenml_user_requirements".
Definition integration_file_name : string := ".zenml_integration_requirements".

(** Slot 1: the export command ran and printed [out]. *)
Definition local_slot (c : DockerConfiguration rt) (t : list Event)
    (slot : list (string * string)) : Prop :=
  match replicate_local_python_environment c with
  | Some method =>
      ∃ out, check_output_call (command method) (Returns out) ∈ t
             ∧ slot = [(local_file_name, out)]
  | None => slot = []
  end.

(** The text of the user requirements: the file as read, or the joined list *)
Definition user_text (c : DockerConfiguration rt) (t : list Event)
    (text : option string) : Prop :=
  match requirements c with
  | Some (RequirementsFile path) =>
      ∃ s, read_file_contents_as_string_call path (Returns s) ∈ t
           ∧ text = Some s
  | Some (RequirementsList packages) => text = Some (str_join newline packages)
  | None => text = None
  end.

(** Slot 2 *)
Definition user_slot (text : option string) : list (string * string) :=
  match text with
  | Some s => if truthy s then [(user_file_name, s)] else []
  | None => []
  end.

(** What the registry of integrations returned for each required name *)
Definition selected (c : DockerConfiguration rt) (t : list Event)
    (per_integration : list (list string)) : Prop :=
  Forall2 (λ name reqs,
             select_integration_requirements_call name (Returns reqs) ∈ t)
          (required_integrations c) per_integration.

(** What the stack adds to the union *)
Definition stack_part (c : DockerConfiguration rt) (stack : Stack)
    (t : list Event) (reqs : gset string) : Prop :=
  if install_stack_requirements c
  then stack_requirements_call stack (Returns reqs) ∈ t
  else reqs = ∅.

(** Slot 3 *)
Definition integration_slot (U : gset string) : list (string * string) :=
  if truthy U then [(integration_file_name, str_join newline (sorted U))]
  else [].

(** ** Running computations *)

Lemma run_bind {A B} (m : M A) (f : A → M B) h :
  (m ≫= f) h =
    match m h with
    | (t1, Ok a) => match f a (h ++ t1) with (t2, r) => (t1 ++ t2, r) end
    | (t1, Raise e) => (t1, Raise e)
    end.
Proof. reflexivity. Qed.

Lemma run_ret {A} (a : A) h : (mret a : M A) h = ([], Ok a).
Proof. reflexivity. Qed.

Lemma run_fmap {A B} (f : A → B) (m : M A) h :
  (f <$> m) h =
    match m h with
    | (t, Ok a) => (t, Ok (f a))
    | (t, Raise e) => (t, Raise e)
    end.
Proof.
  unfold fmap, M_fmap, M_bind, M_ret.
  destruct (m h) as [t [a|e]]; [|done]. by rewrite app_nil_r.
Qed.

Lemma run_perform {A} (answer : list Event → outcome A) event h :
  perform answer event h = ([event (answer h)], result_of_outcome (answer h)).
Proof. reflexivity. Qed.

Lemma bind_Ok {A B} (m : M A) (f : A → M B) h t b :
  (m ≫= f) h = (t, Ok b) →
  ∃ t1 a t2, m h = (t1, Ok a) ∧ f a (h ++ t1) = (t2, Ok b) ∧ t = t1 ++ t2.
Proof.
  rewrite run_bind. destruct (m h) as [t1 [a|e]]; [|done].
  destruct (f a (h ++ t1)) as [t2 r] eqn:Hf. intros [= <- ->]. eauto 6.
Qed.

Lemma bind_Raise {A B} (m : M A) (f : A → M B) h t e :
  (m ≫= f) h = (t, Raise e) →
  m h = (t, Raise e) ∨
  ∃ t1 a t2, m h = (t1, Ok a) ∧ f a (h ++ t1) = (t2, Raise e) ∧ t = t1 ++ t2.
Proof.
  rewrite run_bind. destruct (m h) as [t1 [a|e']].
  - destruct (f a (h ++ t1)) as [t2 r] eqn:Hf. intros [= <- ->]. eauto 8.
  - intros [= <- <-]. by left.
Qed.

Lemma failed_app_l (t1 t2 : list Event) :
  some_call_failed t1 → some_call_failed (t1 ++ t2).
Proof. intros (e & f & ? & ?). exists e, f. set_solver. Qed.

Lemma failed_app_r (t1 t2 : list Event) :
  some_call_failed t2 → some_call_failed (t1 ++ t2).
Proof. intros (e & f & ? & ?). exists e, f. set_solver. Qed.

Lemma perform_Raise {A} (answer : list Event → outcome A) event h t e :
  (∀ f, event_failure (event (Fails f)) = Some f) →
  perform answer event h = (t, Raise e) →
  ∃ f, e = Propagated f ∧ t = [event (Fails f)].
Proof.
  intros Hev. rewrite run_perform. destruct (answer h) as [a|f]; [done|].
  intros [= <- <-]. eauto.
Qed.

Lemma perform_Ok {A} (answer : list Event → outcome A) event h t a :
  perform answer event h = (t, Ok a) → t = [event (Returns a)].
Proof.
  rewrite run_perform. destruct (answer h) as [a'|f]; [|done].
  by intros [= <- <-].
Qed.

(** ** [_gather_requirements_files] *)

Lemma mapM_select_Ok names h t per_integration :
  mapM (integration_registry_select_integration_requirements w) names h
    = (t, Ok per_integration) →
  Forall2 (λ name reqs,
             select_integration_requirements_call name (Returns reqs) ∈ t)
          names per_integration.
Proof.
  revert h t per_integration.
  induction names as [|name names IH]; intros h t sel; simpl.
  - rewrite run_ret. intros [= <- <-]. constructor.
  - intros (t1 & reqs & t2 & H1 & H2 & ->)%bind_Ok.
    apply bind_Ok in H2 as (t3 & sel' & t4 & H3 & H4 & ->).
    rewrite run_ret in H4. injection H4 as <- <-.
    apply perform_Ok in H1 as ->.
    constructor; [set_solver|].
    eapply Forall2_impl; [by eapply IH|]. set_solver.
Qed.

Lemma mapM_select_Raise names h t e :
  mapM (integration_registry_select_integration_requirements w) names h
    = (t, Raise e) →
  (∃ f, e = Propagated f) ∧ some_call_failed t.
Proof.
  revert h t.
  induction names as [|name names IH]; intros h t; simpl.
  - by rewrite run_ret.
  - intros [H1|(t1 & reqs & t2 & H1 & H2 & ->)]%bind_Raise.
    + apply perform_Raise in H1 as (f & -> & ->); [|done].
      split; [eauto|]. eexists _, f. split; [by apply list_elem_of_here|done].
    + apply bind_Raise in H2 as [H2|(t3 & sel' & t4 & H3 & H4 & ->)].
      * apply IH in H2 as [? ?]. split; [done|]. by apply failed_app_r.
      * by rewrite run_ret in H4.
Qed.

Lemma check_output_run cmd h :
  try_except (subprocess_check_output w cmd)
    (λ e, match e with
          | Propagated CalledProcessError => raise UnableToExportLocalPackages
          | _ => raise e
          end) h
  = ([check_output_call cmd (check_output w h cmd)],
     match check_output w h cmd with
     | Returns out => Ok out
     | Fails CalledProcessError => Raise UnableToExportLocalPackages
     | Fails f => Raise (Propagated f)
     end).
Proof.
  unfold try_except, subprocess_check_output. rewrite run_perform.
  by destruct (check_output w h cmd) as [out|[|name]].
Qed.

(** The result of [_gather_requirements_files], by the answers of the
    collaborators that the log holds. *)
Definition gathered (c : DockerConfiguration rt) (stack : Stack)
    (t : list Event) (files : list (string * string)) : Prop :=
  ∃ local text per_integration stack_reqs,
    local_slot c t local ∧ user_text c t text ∧
    selected c t per_integration ∧ stack_part c stack t stack_reqs ∧
    files = local ++ user_slot text ++
            integration_slot (list_to_set (concat per_integration) ∪ stack_reqs).

(** An exception of [_gather_requirements_files] is its own [RuntimeError],
    which takes an export command, or the exception of a collaborator. *)
Definition gather_error (c : DockerConfiguration rt) (e : Exc) : Prop :=
  (e = UnableToExportLocalPackages ∧
   is_Some (replicate_local_python_environment c))
  ∨ ∃ f, e = Propagated f.

Lemma gather_Ok c stack h t files :
  _gather_requirements_files w c stack h = (t, Ok files) →
  gathered c stack t files.
Proof.
  unfold _gather_requirements_files, gathered, local_slot, user_text, selected,
    stack_part.
  intros (t1 & local & ta & H1 & H & ->)%bind_Ok.
  apply bind_Ok in H as (t2 & text & tb & H2 & H & ->).
  apply bind_Ok in H as (t3 & per_integration & tc & H3 & H & ->).
  apply bind_Ok in H as (t4 & U & td & H4 & H & ->).
  rewrite run_ret in H. injection H as <- <-.
  apply mapM_select_Ok in H3.
  assert (∃ stack_reqs,
            U = list_to_set (concat per_integration) ∪ stack_reqs ∧
            if install_stack_requirements c
            then stack_requirements_call stack (Returns stack_reqs) ∈ t4
            else stack_reqs = ∅) as (stack_reqs & -> & Hstack).
  { destruct (install_stack_requirements c).
    - apply bind_Ok in H4 as (t5 & stack_reqs & t6 & H5 & H6 & ->).
      rewrite run_ret in H6. injection H6 as <- <-.
      apply perform_Ok in H5 as ->. exists stack_reqs. set_solver.
    - rewrite run_ret in H4. injection H4 as <- <-. exists ∅.
      split; [|done]. by rewrite (right_id_L ∅ (∪)). }
  exists local, text, per_integration, stack_reqs. split_and!.
  - destruct (replicate_local_python_environment c) as [method|].
    + apply bind_Ok in H1 as (t5 & out & t6 & H5 & H6 & ->).
      rewrite run_ret in H6. injection H6 as <- <-.
      rewrite check_output_run in H5.
      destruct (check_output w h (command method)) as [out'|[|name]] eqn:Hout;
        simplify_eq.
      exists out. split; [set_solver|done].
    + rewrite run_ret in H1. by injection H1 as <- <-.
  - destruct (requirements c) as [[path|packages]|].
    + rewrite run_fmap in H2. unfold io_utils_read_file_contents_as_string in H2.
      rewrite run_perform in H2.
      destruct (read_file_contents_as_string w (h ++ t1) path) as [s|f];
        simplify_eq/=.
      exists s. split; [set_solver|done].
    + rewrite run_ret in H2. by injection H2 as <- <-.
    + rewrite run_ret in H2. by injection H2 as <- <-.
  - eapply Forall2_impl; [done|]. set_solver.
  - destruct (install_stack_requirements c); [set_solver|done].
  - unfold user_slot, integration_slot, user_file_name, integration_file_name.
    destruct text as [s|]; [destruct (truthy s)|];
      destruct (truthy _); by rewrite <-?app_assoc, ?app_nil_r.
Qed.

Lemma gather_error_app_r c (e : Exc) (t1 t2 : list Event) :
  gather_error c e ∧ some_call_failed t2 →
  gather_error c e ∧ some_call_failed (t1 ++ t2).
Proof. intros [? ?]. split; [done|by apply failed_app_r]. Qed.

Lemma perform_gather_error {A} c
    (answer : list Event → outcome A) event h t e :
  (∀ f, event_failure (event (Fails f)) = Some f) →
  perform answer event h = (t, Raise e) →
  gather_error c e ∧ some_call_failed t.
Proof.
  intros Hev (f & -> & ->)%perform_Raise; [|done].
  split; [right; eauto|].
  exists (event (Fails f)), f. split; [by apply list_elem_of_here|done].
Qed.

Lemma gather_Raise c stack h t e :
  _gather_requirements_files w c stack h = (t, Raise e) →
  gather_error c e ∧ some_call_failed t.
Proof.
  unfold _gather_requirements_files.
  intros [H1|(t1 & local & ta & _ & H & ->)]%bind_Raise.
  { destruct (replicate_local_python_environment c) as [method|] eqn:Hrep;
      [|by rewrite run_ret in H1].
    apply bind_Raise in H1 as [H1|(? & ? & ? & _ & H1 & _)];
      [|by rewrite run_ret in H1].
    rewrite check_output_run in H1.
    destruct (check_output w h (command method)) as [out|f] eqn:Hout;
      [done|].
    split.
    - destruct f; simplify_eq; [left|right; eauto].
      unfold gather_error. rewrite Hrep. eauto.
    - exists (check_output_call (command method) (Fails f)), f.
      split; [|done]. destruct f; simplify_eq; set_solver. }
  apply gather_error_app_r.
  apply bind_Raise in H as [H2|(t2 & text & tb & _ & H & ->)].
  { destruct (requirements c) as [[path|packages]|];
      [|by rewrite run_ret in H2..].
    rewrite run_fmap in H2.
    destruct (io_utils_read_file_contents_as_string w path (h ++ t1))
      as [t2 [s|e']] eqn:Hread; simplify_eq.
    by apply (perform_gather_error c) in Hread. }
  apply gather_error_app_r.
  apply bind_Raise in H as [H3|(t3 & per_integration & tc & _ & H & ->)].
  { apply mapM_select_Raise in H3 as [[f ->] ?]. split; [right; eauto|done]. }
  apply gather_error_app_r.
  apply bind_Raise in H as [H4|(? & ? & ? & _ & H & _)];
    [|by rewrite run_ret in H].
  destruct (install_stack_requirements c); [|by rewrite run_ret in H4].
  apply bind_Raise in H4 as [H4|(? & ? & ? & _ & H4 & _)];
    [|by rewrite run_ret in H4].
  by apply (perform_gather_error c) in H4.
Qed.

(** ** [sorted] *)

Lemma elem_of_concat {A} (x : A) (ls : list (list A)) :
  x ∈ concat ls ↔ ∃ l, l ∈ ls ∧ x ∈ l.
Proof.
  induction ls as [|l ls IH]; simpl.
  - rewrite elem_of_nil. split; [done|]. by intros (? & ?%elem_of_nil & _).
  - rewrite elem_of_app, IH. setoid_rewrite elem_of_cons. naive_solver.
Qed.

Lemma sorted_Permutation (U : gset string) : sorted U ≡ₚ elements U.
Proof. apply merge_sort_Permutation. Qed.

Lemma sorted_Sorted (U : gset string) : Sorted String.le (sorted U).
Proof. apply (Sorted_merge_sort String.le). Qed.

Lemma sorted_NoDup (U : gset string) : NoDup (sorted U).
Proof. rewrite sorted_Permutation. apply NoDup_elements. Qed.

Lemma elem_of_sorted (U : gset string) x : x ∈ sorted U ↔ x ∈ U.
Proof. rewrite sorted_Permutation. apply elem_of_elements. Qed.

(** The sorted list of a set does not depend on the order in which the set
    hands out its elements: it is the only sorted list without duplicates
    that has the elements of the set. *)
Lemma sorted_unique (U : gset string) (l : list string) :
  Sorted String.le l → NoDup l → (∀ x, x ∈ l ↔ x ∈ U) → l = sorted U.
Proof.
  intros Hsorted Hnodup Hmem.
  apply (Sorted_unique String.le); [done|apply sorted_Sorted|].
  apply NoDup_Permutation; [done|apply sorted_NoDup|].
  intros x. by rewrite Hmem, elem_of_sorted.
Qed.

Lemma truthy_gset (U : gset string) : truthy U = true ↔ U ≠ ∅.
Proof.
  unfold truthy, gset_truthy. rewrite negb_true_iff, bool_decide_eq_false.
  done.
Qed.

Lemma truthy_string (s : string) : truthy s = true ↔ s ≠ "".
Proof. by destruct s. Qed.

Lemma integration_slot_elem (U : gset string) name content :
  (name, content) ∈ integration_slot U ↔
  name = integration_file_name ∧ U ≠ ∅ ∧ content = str_join newline (sorted U).
Proof.
  unfold integration_slot. destruct (truthy U) eqn:HU.
  - apply truthy_gset in HU. rewrite list_elem_of_singleton. naive_solver.
  - assert (¬ U ≠ ∅) by (rewrite <-truthy_gset; congruence). 
    rewrite elem_of_nil. naive_solver.
Qed.

Lemma user_slot_elem text name content :
  (name, content) ∈ user_slot text ↔
  name = user_file_name ∧ text = Some content ∧ content ≠ "".
Proof.
  unfold user_slot. destruct text as [s|]; [destruct (truthy s) eqn:Hs|].
  - apply truthy_string in Hs. rewrite list_elem_of_singleton. naive_solver.
  - assert (¬ s ≠ "") by (rewrite <-truthy_string; congruence).
    rewrite elem_of_nil. naive_solver.
  - rewrite elem_of_nil. naive_solver.
Qed.

Lemma local_slot_elem c t local name content :
  local_slot c t local → (name, content) ∈ local →
  name = local_file_name ∧ is_Some (replicate_local_python_environment c).
Proof.
  unfold local_slot. destruct (replicate_local_python_environment c).
  - intros (out & _ & ->). rewrite list_elem_of_singleton. naive_solver.
  - intros ->. by rewrite elem_of_nil.
Qed.

(** ** The requirements files *)

(** C4, as the code has it. [_gather_requirements_files] either raises,
    which takes a failed call of a collaborator, or returns up to three files
    in the order local snapshot, user requirements, integration requirements,
    under their fixed names. The snapshot is there exactly when
    [replicate_local_python_environment] is set, and holds what the export
    command printed, whatever that is; the user file is there exactly when
    the text of the user requirements is not empty; the integration file is
    there exactly when the union of the integration and stack requirements is
    not empty. *)
Theorem requirements_files_slots (c : DockerConfiguration rt) stack h :
  match _gather_requirements_files w c stack h with
  | (t, Ok files) =>
      ∃ local text per_integration stack_reqs,
        local_slot c t local ∧ user_text c t text ∧
        selected c t per_integration ∧ stack_part c stack t stack_reqs ∧
        let U : gset string :=
          list_to_set (concat per_integration) ∪ stack_reqs in
        files = local ++ user_slot text ++ integration_slot U ∧
        (fst <$> files) `sublist_of`
          [local_file_name; user_file_name; integration_file_name] ∧
        (local_file_name ∈ fst <$> files ↔
           is_Some (replicate_local_python_environment c)) ∧
        (user_file_name ∈ fst <$> files ↔ ∃ s, text = Some s ∧ s ≠ "") ∧
        (integration_file_name ∈ fst <$> files ↔ U ≠ ∅)
  | (t, Raise e) => gather_error c e ∧ some_call_failed t
  end.
Proof.
  destruct (_gather_requirements_files w c stack h) as [t [files|e]] eqn:Hg;
    [|by eapply gather_Raise].
  apply gather_Ok in Hg
    as (local & text & per_integration & stack_reqs & Hl & Ht & Hs & Hr & ->).
  exists local, text, per_integration, stack_reqs.
  do 4 (split; [done|]). cbv zeta. split_and!; [done|..].
  - rewrite !fmap_app.
    change [local_file_name; user_file_name; integration_file_name]
      with ([local_file_name] ++ [user_file_name] ++ [integration_file_name]).
    repeat apply sublist_app.
    + unfold local_slot in Hl.
      destruct (replicate_local_python_environment c);
        [destruct Hl as (out & _ & ->); (cbn; apply sublist_skip, sublist_nil_l)
        |subst local; apply sublist_nil_l].
    + unfold user_slot. destruct text as [s|]; [destruct (truthy s)|];
        first [apply sublist_nil_l | (cbn; apply sublist_skip, sublist_nil_l)].
    + unfold integration_slot. destruct (truthy _);
        first [apply sublist_nil_l | (cbn; apply sublist_skip, sublist_nil_l)].
  - rewrite !fmap_app, !elem_of_app. split.
    + intros [H|[H|H]]; apply list_elem_of_fmap in H as ([n x] & Hn & H);
        simpl in Hn; subst n.
      * by eapply local_slot_elem.
      * by apply user_slot_elem in H as [? _].
      * by apply integration_slot_elem in H as [? _].
    + unfold local_slot in Hl. intros [method Hm]. rewrite Hm in Hl.
      destruct Hl as (out & _ & ->). left. set_solver.
  - rewrite !fmap_app, !elem_of_app. split.
    + intros [H|[H|H]]; apply list_elem_of_fmap in H as ([n x] & Hn & H);
        simpl in Hn; subst n.
      * by eapply local_slot_elem in H as [? _].
      * apply user_slot_elem in H as (_ & ? & ?). eauto.
      * by apply integration_slot_elem in H as [? _].
    + intros (s & -> & Hs'). right; left.
      apply list_elem_of_fmap. exists (user_file_name, s).
      split; [done|]. by apply user_slot_elem.
  - rewrite !fmap_app, !elem_of_app. split.
    + intros [H|[H|H]]; apply list_elem_of_fmap in H as ([n x] & Hn & H);
        simpl in Hn; subst n.
      * by eapply local_slot_elem in H as [? _].
      * by apply user_slot_elem in H as [? _].
      * by apply integration_slot_elem in H as (_ & ? & _).
    + intros HU. right; right. apply list_elem_of_fmap.
      eexists (integration_file_name, _). split; [done|].
      by apply integration_slot_elem.
Qed.

(** C5. When [_gather_requirements_files] returns, the file named
    [.zenml_integration_requirements] is there if and only if the union of
    the requirements that the registry returned for the required integrations
    and, when [install_stack_requirements] is set, of [stack.requirements()]
    is not empty; its content is then the lines of that union joined by
    newlines, where the lines are sorted, hold no line twice and are
    exactly the members of the union. There is only one such list of lines,
    so the content depends on the members of the union alone and not on how
    often or in which order they were found. *)
Theorem integration_requirements_file (c : DockerConfiguration rt) stack h :
  match _gather_requirements_files w c stack h with
  | (t, Ok files) =>
      ∃ per_integration stack_reqs,
        selected c t per_integration ∧ stack_part c stack t stack_reqs ∧
        let U : gset string :=
          list_to_set (concat per_integration) ∪ stack_reqs in
        (∀ x, x ∈ U ↔
           (∃ reqs, reqs ∈ per_integration ∧ x ∈ reqs) ∨ x ∈ stack_reqs) ∧
        (∀ content, (integration_file_name, content) ∈ files ↔
           U ≠ ∅ ∧ content = str_join newline (sorted U)) ∧
        Sorted String.le (sorted U) ∧ NoDup (sorted U) ∧
        (∀ x, x ∈ sorted U ↔ x ∈ U) ∧
        (∀ lines, Sorted String.le lines → NoDup lines →
           (∀ x, x ∈ lines ↔ x ∈ U) → lines = sorted U)
  | (t, Raise e) => gather_error c e ∧ some_call_failed t
  end.
Proof.
  destruct (_gather_requirements_files w c stack h) as [t [files|e]] eqn:Hg;
    [|by eapply gather_Raise].
  apply gather_Ok in Hg
    as (local & text & per_integration & stack_reqs & Hl & Ht & Hs & Hr & ->).
  exists per_integration, stack_reqs.
  do 2 (split; [done|]). cbv zeta. split_and!.
  - intros x. rewrite elem_of_union, elem_of_list_to_set, elem_of_concat.
    naive_solver.
  - intros content. rewrite !elem_of_app, integration_slot_elem. split.
    + intros [H|[H|H]].
      * by eapply local_slot_elem in H as [? _].
      * by apply user_slot_elem in H as [? _].
      * by destruct H.
    + intros [? ?]. by right; right.
  - apply sorted_Sorted.
  - apply sorted_NoDup.
  - apply elem_of_sorted.
  - apply sorted_unique.
Qed.

(** ** The generated Dockerfile *)

Lemma foldl_snoc_each {A B} (f : list A → B → list A) (g : B → list A)
    (l : list B) (acc : list A) :
  (∀ acc b, f acc b = acc ++ g b) →
  foldl f acc l = acc ++ concat (g <$> l).
Proof.
  intros Hf. revert acc; induction l as [|b l IH]; intros acc; simpl.
  - by rewrite app_nil_r.
  - by rewrite IH, Hf, app_assoc.
Qed.

Lemma concat_singletons {A B} (g : B → A) (l : list B) :
  concat ((λ b, [g b]) <$> l) = g <$> l.
Proof. induction l as [|b l IH]; csimpl; [done|by rewrite IH]. Qed.

Lemma generate_layout parent (c : DockerConfiguration rt) files entrypoint :
  _generate_zenml_pipeline_dockerfile parent c files entrypoint =
    ["FROM " +:+ parent; "WORKDIR /app"]
    ++ profile_env_lines c
    ++ (env_line <$> environment c)
    ++ concat (install_pair <$> files)
    ++ copy_lines c
    ++ ["RUN chmod -R a+rw ."]
    ++ entrypoint_lines entrypoint.
Proof.
  unfold _generate_zenml_pipeline_dockerfile.
  rewrite (foldl_snoc_each _ install_pair)
    by (intros; unfold install_pair; by rewrite <-app_assoc).
  rewrite (foldl_snoc_each _ (λ kv, [env_line kv])) by (by intros ? [??]).
  rewrite concat_singletons.
  unfold profile_env_lines, copy_lines, entrypoint_lines.
  destruct (copy_profile c), (copy_files c), entrypoint as [e|];
    try destruct (truthy e);
    rewrite <-?app_assoc, ?app_nil_r; reflexivity.
Qed.

(** C6. [_generate_zenml_pipeline_dockerfile] is a function of its four
    arguments, and its lines are, in this order: the [FROM] line of the
    parent image, the [WORKDIR] line, the [ENV] line of the configuration
    path if [copy_profile], one [ENV] line for every entry of [environment]
    in insertion order with the key in upper case, for every requirements
    file in order its [COPY] line directly followed by its [RUN pip install]
    line, [COPY . .] if [copy_files] and else the [COPY] of the configuration
    directory if [copy_profile], the [RUN chmod] line, and an [ENTRYPOINT]
    line exactly when an entrypoint (a non-empty string) is given. Giving an
    entrypoint where there was none appends that one line and changes
    nothing else. *)
Theorem dockerfile_layout parent (c : DockerConfiguration rt) files entrypoint :
  _generate_zenml_pipeline_dockerfile parent c files entrypoint =
    ["FROM " +:+ parent; "WORKDIR /app"]
    ++ (if copy_profile c
        then ["ENV " +:+ ENV_ZENML_CONFIG_PATH rt +:+ "=/app/.zenconfig"]
        else [])
    ++ ((λ kv, "ENV " +:+ str_upper rt kv.1 +:+ "=" +:+ format_value rt kv.2)
          <$> environment c)
    ++ concat ((λ file, ["COPY " +:+ file +:+ " .";
                         "RUN pip install --no-cache-dir -r " +:+ file])
                 <$> files)
    ++ (if copy_files c then ["COPY . ."]
        else if copy_profile c then ["COPY .zenconfig ."] else [])
    ++ ["RUN chmod -R a+rw ."]
    ++ (match entrypoint with
        | Some e => if truthy e then ["ENTRYPOINT " +:+ e] else []
        | None => []
        end)
  ∧ (∀ e, e ≠ "" →
       _generate_zenml_pipeline_dockerfile parent c files (Some e) =
       _generate_zenml_pipeline_dockerfile parent c files None
         ++ ["ENTRYPOINT " +:+ e]).
Proof.
  split; [apply generate_layout|].
  intros e He%truthy_string. rewrite !generate_layout.
  unfold entrypoint_lines. rewrite He, !app_assoc. by rewrite app_nil_r.
Qed.

(** ** [build_docker_image], stage by stage *)

(** The parent image before the branch on [dockerfile] *)
Definition resolved_parent_image
    (self : PipelineDockerImageBuilder) (c : DockerConfiguration rt) : string :=
  or_else (parent_image c)
    (or_else (docker_parent_image self) (DEFAULT_DOCKER_PARENT_IMAGE rt)).

(** The call that builds the custom Dockerfile under [image_name] *)
Definition custom_build_call (image_name custom_dockerfile : string)
    (c : DockerConfiguration rt) : BuildImageCall rt := {|
  call_image_name := image_name;
  call_dockerfile := DockerfilePath custom_dockerfile;
  call_build_context_root := build_context_root c;
  call_keywords := expand (build_options c)
|}.

(** The call that builds the generated Dockerfile *)
Definition synthesis_call (target_image_name parent : string)
    (c : DockerConfiguration rt) (entrypoint : option string)
    (files : list (string * string)) (root : option string) (pull : bool)
  : BuildImageCall rt := {|
  call_image_name := target_image_name;
  call_dockerfile :=
    DockerfileLines
      (_generate_zenml_pipeline_dockerfile parent c (fst <$> files) entrypoint);
  call_build_context_root := root;
  call_keywords :=
    [("dockerignore", optional_str (dockerignore c));
     ("extra_files", VFiles files);
     ("pull", VBool pull)]
|}.

(** The [with] statement at the end of [build_docker_image] *)
Definition final_build (c : DockerConfiguration rt)
    (root : option string) (call : BuildImageCall rt) : M unit :=
  (if copy_profile c
   then match root with
        | Some root =>
            _include_active_profile w root DOCKER_IMAGE_ZENML_CONFIG_PATH
        | None => λ A _, raise (Propagated (OtherError "TypeError"))
        end
   else nullcontext) _ (docker_utils_build_image w call).

(** Whether to pull the parent image *)
Definition pull_step (parent : string) : M bool :=
  if bool_decide (parent = DEFAULT_DOCKER_PARENT_IMAGE rt)
  then mret false
  else negb <$> docker_utils_is_local_image w parent.

(** The root of the build context *)
Definition root_step (c : DockerConfiguration rt) : M (option string) :=
  if copy_files c || copy_profile c
  then Some <$> source_utils_get_source_root_path w
  else mret None.

(** What [build_docker_image] does under [if requires_zenml_build:] *)
Definition synthesis_build (target_image_name parent : string)
    (c : DockerConfiguration rt) (stack : Stack) (entrypoint : option string)
  : M unit :=
  files ← _gather_requirements_files w c stack;
  pull ← pull_step parent;
  root ← root_step c;
  final_build c root
    (synthesis_call target_image_name parent c entrypoint files root pull).

(** The build of the custom Dockerfile under [image_name], with the build
    options of the configuration expanded into the call *)
Definition custom_build (image_name custom_dockerfile : string)
    (c : DockerConfiguration rt) : M unit :=
  docker_utils_build_image_expanding w
    (custom_build_call image_name custom_dockerfile c) (build_options c).

(** How the call of the custom build ends: with [TypeError] if the build
    options repeat a keyword of the call, else as the collaborator says *)
Definition custom_build_answer (h : list Event)
    (image_name custom_dockerfile : string) (c : DockerConfiguration rt)
  : outcome unit :=
  if repeats_keyword (build_options c)
  then Fails (OtherError "TypeError")
  else build_image w h (custom_build_call image_name custom_dockerfile c).

Lemma custom_build_run image_name custom_dockerfile
    (c : DockerConfiguration rt) h :
  custom_build image_name custom_dockerfile c h =
    ([build_image_call (custom_build_call image_name custom_dockerfile c)
        (custom_build_answer h image_name custom_dockerfile c)],
     result_of_outcome (custom_build_answer h image_name custom_dockerfile c)).
Proof. reflexivity. Qed.

Lemma build_docker_image_stages self target pipeline_name
    (c : DockerConfiguration rt) stack entrypoint h :
  build_docker_image w self target pipeline_name c stack entrypoint h =
  match if_truthy (dockerfile c) with
  | Some custom_dockerfile =>
      if requires_zenml_build c entrypoint
      then (custom_build (intermediate_image_name pipeline_name)
              custom_dockerfile c;;
            synthesis_build target (intermediate_image_name pipeline_name)
              c stack entrypoint) h
      else custom_build target custom_dockerfile c h
  | None =>
      if requires_zenml_build c entrypoint
      then synthesis_build target (resolved_parent_image self c)
             c stack entrypoint h
      else if bool_decide (resolved_parent_image self c =
                           DEFAULT_DOCKER_PARENT_IMAGE rt)
      then ([], Raise InsufficientBuildConfiguration)
      else docker_utils_tag_image w (resolved_parent_image self c) target h
  end.
Proof.
  unfold build_docker_image, synthesis_build, pull_step, root_step,
    final_build, custom_build_call, synthesis_call, resolved_parent_image.
  destruct (if_truthy (dockerfile c)) as [custom_dockerfile|];
    destruct (requires_zenml_build c entrypoint); cbn [negb].
  - rewrite !run_bind.
    fold (custom_build_call (intermediate_image_name pipeline_name)
            custom_dockerfile c).
    fold (custom_build (intermediate_image_name pipeline_name)
            custom_dockerfile c).
    rewrite custom_build_run.
    destruct (custom_build_answer h _ _ _) as [[]|f]; cbn [result_of_outcome];
      rewrite ?run_ret; reflexivity.
  - rewrite !run_bind.
    fold (custom_build_call target custom_dockerfile c).
    fold (custom_build target custom_dockerfile c).
    rewrite custom_build_run.
    destruct (custom_build_answer h _ _ _) as [[]|f]; cbn [result_of_outcome];
      rewrite ?run_ret; reflexivity.
  - rewrite run_bind, run_ret, app_nil_r.
    match goal with |- (let (_, _) := ?m in _) = _ => by destruct m end.
  - destruct (bool_decide _); [done|].
    rewrite !run_bind. unfold docker_utils_tag_image. rewrite !run_perform.
    destruct (tag_image w h _ _) as [[]|f]; cbn [result_of_outcome];
      rewrite ?run_ret; reflexivity.
Qed.

(** ** The events of each stage *)

(** Every event that [m] logs satisfies [P]. *)
Definition emits {A} (P : Event → Prop) (m : M A) : Prop :=
  ∀ h t r, m h = (t, r) → Forall P t.

Lemma emits_ret {A} P (a : A) : emits P (mret a : M A).
Proof. intros h t r. rewrite run_ret. by intros [= <- <-]. Qed.

Lemma emits_raise {A} P e : emits P (raise e : M A).
Proof. intros h t r [= <- <-]. constructor. Qed.

Lemma emits_perform {A} P (answer : list Event → outcome A) event :
  (∀ a, P (event a)) → emits P (perform answer event).
Proof.
  intros HP h t r. rewrite run_perform. intros [= <- <-]. by repeat constructor.
Qed.

Lemma emits_bind {A B} P (m : M A) (f : A → M B) :
  emits P m → (∀ a, emits P (f a)) → emits P (m ≫= f).
Proof.
  intros Hm Hf h t r. rewrite run_bind.
  destruct (m h) as [t1 [a|e]] eqn:Hmh.
  - destruct (f a (h ++ t1)) as [t2 r2] eqn:Hfa. intros [= <- <-].
    apply Forall_app. split; [by eapply Hm|by eapply Hf].
  - intros [= <- <-]. by eapply Hm.
Qed.

Lemma emits_fmap {A B} P (g : A → B) (m : M A) : emits P m → emits P (g <$> m).
Proof.
  intros Hm h t r. rewrite run_fmap.
  destruct (m h) as [t1 [a|e]] eqn:Hmh; intros [= <- <-]; by eapply Hm.
Qed.

Lemma emits_try_except {A} P (m : M A) handler :
  emits P m → (∀ e, emits P (handler e)) → emits P (try_except m handler).
Proof.
  intros Hm Hh h t r. unfold try_except.
  destruct (m h) as [t1 [a|e]] eqn:Hmh.
  - intros [= <- <-]. by eapply Hm.
  - destruct (handler e (h ++ t1)) as [t2 r2] eqn:He. intros [= <- <-].
    apply Forall_app. split; [by eapply Hm|by eapply Hh].
Qed.

Lemma emits_mapM {A B} P (f : A → M B) (l : list A) :
  (∀ a, emits P (f a)) → emits P (mapM f l).
Proof.
  intros Hf. induction l as [|a l IH]; simpl; [apply emits_ret|].
  apply emits_bind; [done|]. intros b.
  apply emits_bind; [done|]. intros k. apply emits_ret.
Qed.

(** The events of [_gather_requirements_files] *)
Definition gather_event (e : Event) : Prop :=
  match e with
  | check_output_call _ _ | read_file_contents_as_string_call _ _
  | select_integration_requirements_call _ _ | stack_requirements_call _ _ =>
      True
  | _ => False
  end.

Lemma gather_emits c stack :
  emits gather_event (_gather_requirements_files w c stack).
Proof.
  unfold _gather_requirements_files.
  apply emits_bind.
  { destruct (replicate_local_python_environment c); [|apply emits_ret].
    apply emits_bind; [|intros; apply emits_ret].
    apply emits_try_except; [by apply emits_perform|].
    intros [| | |[|]]; apply emits_raise. }
  intros local. apply emits_bind.
  { destruct (requirements c) as [[path|packages]|]; try apply emits_ret.
    by apply emits_fmap, emits_perform. }
  intros text. apply emits_bind.
  { apply emits_mapM. intros name. by apply emits_perform. }
  intros per_integration. apply emits_bind; [|intros; apply emits_ret].
  destruct (install_stack_requirements c); [|apply emits_ret].
  apply emits_bind; [by apply emits_perform|intros; apply emits_ret].
Qed.

Lemma gather_event_calls (t : list Event) :
  Forall gather_event t →
  build_calls t = [] ∧ tag_calls t = [] ∧ copy_calls t = [] ∧
  rmtree_calls t = [] ∧ push_calls t = [] ∧
  (∀ image a, is_local_image_call image a ∉ t).
Proof.
  induction 1 as [|e t He _ (IH1 & IH2 & IH3 & IH4 & IH5 & IH6)].
  - split_and!; try done. intros ??. apply not_elem_of_nil.
  - unfold build_calls, tag_calls, copy_calls, rmtree_calls, push_calls in *.
    destruct e; try done; simpl; split_and!; try done;
      intros ?? [?|?]%elem_of_cons; try done; by eapply IH6.
Qed.

Lemma pull_step_run parent h :
  pull_step parent h =
    if bool_decide (parent = DEFAULT_DOCKER_PARENT_IMAGE rt)
    then ([], Ok false)
    else ([is_local_image_call parent (is_local_image w h parent)],
          match is_local_image w h parent with
          | Returns is_local => Ok (negb is_local)
          | Fails f => Raise (Propagated f)
          end).
Proof.
  unfold pull_step. destruct (bool_decide _); [done|].
  rewrite run_fmap. unfold docker_utils_is_local_image. rewrite run_perform.
  by destruct (is_local_image w h parent).
Qed.

Lemma root_step_run (c : DockerConfiguration rt) h :
  root_step c h =
    if copy_files c || copy_profile c
    then ([get_source_root_path_call (get_source_root_path w h)],
          match get_source_root_path w h with
          | Returns root => Ok (Some root)
          | Fails f => Raise (Propagated f)
          end)
    else ([], Ok None).
Proof.
  unfold root_step. destruct (_ || _); [|done].
  rewrite run_fmap. unfold source_utils_get_source_root_path.
  rewrite run_perform. by destruct (get_source_root_path w h).
Qed.

(** The path of the copy of the active configuration *)
Definition profile_copy_path (root : string) : string :=
  os_path_join root DOCKER_IMAGE_ZENML_CONFIG_DIR.

(** The [with] statement with the profile: the copy, then the build if the
    copy succeeded, then the removal in every case. *)
Lemma include_active_profile_run root (call : BuildImageCall rt) h :
  _include_active_profile w root DOCKER_IMAGE_ZENML_CONFIG_PATH _
    (docker_utils_build_image w call) h =
  let path := profile_copy_path root in
  let copy := copy_active_configuration_call path DOCKER_IMAGE_ZENML_CONFIG_PATH
                (copy_active_configuration w h path
                   DOCKER_IMAGE_ZENML_CONFIG_PATH) in
  let '(body, result) :=
    match copy_active_configuration w h path DOCKER_IMAGE_ZENML_CONFIG_PATH with
    | Returns _ =>
        ([copy; build_image_call call (build_image w (h ++ [copy]) call)],
         result_of_outcome (build_image w (h ++ [copy]) call))
    | Fails f => ([copy], Raise (Propagated f))
    end in
  (body ++ [rmtree_call path (rmtree w (h ++ body) path)],
   match rmtree w (h ++ body) path with
   | Returns _ => result
   | Fails f => Raise (Propagated f)
   end).
Proof.
  unfold _include_active_profile, try_finally, profile_copy_path.
  rewrite run_bind.
  unfold GlobalConfiguration_copy_active_configuration, fileio_rmtree,
    docker_utils_build_image.
  rewrite !run_perform.
  destruct (copy_active_configuration w h _ _) as [[]|f]; cbn [result_of_outcome].
  - rewrite !run_perform. cbn [app].
    by destruct (rmtree w _ _) as [[]|f'].
  - rewrite !run_perform. by destruct (rmtree w _ _) as [[]|f'].
Qed.

Lemma final_build_run (c : DockerConfiguration rt) root call h :
  final_build c root call h =
    if copy_profile c
    then match root with
         | Some root =>
             _include_active_profile w root DOCKER_IMAGE_ZENML_CONFIG_PATH _
               (docker_utils_build_image w call) h
         | None => ([], Raise (Propagated (OtherError "TypeError")))
         end
    else ([build_image_call call (build_image w h call)],
          result_of_outcome (build_image w h call)).
Proof. unfold final_build. by destruct (copy_profile c), root. Qed.

Lemma synthesis_build_run target parent (c : DockerConfiguration rt)
    stack entrypoint h :
  synthesis_build target parent c stack entrypoint h =
    match _gather_requirements_files w c stack h with
    | (tg, Raise e) => (tg, Raise e)
    | (tg, Ok files) =>
        match pull_step parent (h ++ tg) with
        | (tl, Raise e) => (tg ++ tl, Raise e)
        | (tl, Ok pull) =>
            match root_step c ((h ++ tg) ++ tl) with
            | (tr, Raise e) => (tg ++ tl ++ tr, Raise e)
            | (tr, Ok root) =>
                match final_build c root
                        (synthesis_call target parent c entrypoint
                           files root pull)
                        (((h ++ tg) ++ tl) ++ tr) with
                | (tw, r) => (tg ++ tl ++ tr ++ tw, r)
                end
            end
        end
    end.
Proof.
  unfold synthesis_build. rewrite run_bind.
  destruct (_gather_requirements_files w c stack h) as [tg [files|e]]; [|done].
  rewrite run_bind. destruct (pull_step parent (h ++ tg)) as [tl [pull|e]];
    [|done].
  rewrite run_bind. destruct (root_step c _) as [tr [root|e]]; [|done].
  by destruct (final_build _ _ _ _) as [tw r].
Qed.

Lemma build_calls_app (t1 t2 : list Event) :
  build_calls (t1 ++ t2) = build_calls t1 ++ build_calls t2.
Proof. apply omap_app. Qed.

Lemma tag_calls_app (t1 t2 : list Event) :
  tag_calls (t1 ++ t2) = tag_calls t1 ++ tag_calls t2.
Proof. apply omap_app. Qed.

Lemma copy_calls_app (t1 t2 : list Event) :
  copy_calls (t1 ++ t2) = copy_calls t1 ++ copy_calls t2.
Proof. apply omap_app. Qed.

Lemma rmtree_calls_app (t1 t2 : list Event) :
  rmtree_calls (t1 ++ t2) = rmtree_calls t1 ++ rmtree_calls t2.
Proof. apply omap_app. Qed.

Lemma push_calls_app (t1 t2 : list Event) :
  push_calls (t1 ++ t2) = push_calls t1 ++ push_calls t2.
Proof. apply omap_app. Qed.

(** All the ways in which [synthesis_build] can run: [H] is its run, and
    every case comes with the run of the gathering before it. *)
Ltac synthesis_cases H :=
  rewrite synthesis_build_run in H;
  let tg := fresh "tg" in
  let files := fresh "files" in
  let Hg := fresh "Hg" in
  let Hev := fresh "Hev" in
  match type of H with
  | context [_gather_requirements_files ?w ?c ?stack ?h] =>
      destruct (_gather_requirements_files w c stack h)
        as [tg [files|?]] eqn:Hg;
      pose proof (gather_emits c stack _ _ _ Hg) as Hev;
      apply gather_event_calls in Hev
  end;
  cbv beta iota in H;
  try (rewrite pull_step_run in H; case_bool_decide;
       [|destruct (is_local_image _ _ _) as [[]|?] eqn:?];
       cbv beta iota in H);
  try (rewrite root_step_run in H;
       destruct (copy_files _) eqn:?, (copy_profile _) eqn:?; cbn [orb] in H;
       try (destruct (get_source_root_path _ _) as [?|?] eqn:?);
       cbv beta iota in H);
  try (rewrite final_build_run in H;
       repeat match type of H with
              | context [copy_profile ?c] =>
                  match goal with
                  | Hc : copy_profile c = _ |- _ => rewrite Hc in H
                  end
              end;
       cbv beta iota in H;
       try (rewrite include_active_profile_run in H; cbv zeta in H;
            destruct (copy_active_configuration _ _ _ _) as [[]|?] eqn:?;
            cbv beta iota in H);
       try (destruct (build_image _ _ _) as [[]|?] eqn:?);
       cbv beta iota in H;
       try (destruct (rmtree _ _ _) as [[]|?] eqn:?);
       cbv beta iota in H);
  cbn [result_of_outcome] in H; simplify_eq.

Lemma synthesis_build_calls target parent (c : DockerConfiguration rt)
    stack entrypoint h t r :
  synthesis_build target parent c stack entrypoint h = (t, r) →
  tag_calls t = [] ∧ push_calls t = [] ∧
  ((r ≠ Ok () ∧ build_calls t = []) ∨
   ∃ files root pull,
     build_calls t =
       [synthesis_call target parent c entrypoint files root pull]).
Proof.
  intros H. synthesis_cases H.
  all: destruct Hev as (Hb & Ht & Hc & Hr & Hp & Hl).
  all: rewrite ?build_calls_app, ?tag_calls_app, ?push_calls_app, Hb, Ht, Hp.
  all: split_and!; [done..|]; simpl; first [by left|by right; eauto].
Qed.

Lemma failed_Exists (t : list Event) :
  some_call_failed t ↔ Exists (λ e, is_Some (event_failure e)) t.
Proof.
  rewrite Exists_exists. unfold some_call_failed, is_Some. naive_solver.
Qed.

(** A log written out event by event holds a failed call. *)
Ltac find_failed_call :=
  apply failed_Exists; rewrite ?Exists_app, ?Exists_cons;
  cbn [event_failure]; unfold is_Some; naive_solver.

Lemma synthesis_build_error target parent (c : DockerConfiguration rt)
    stack entrypoint h t e :
  synthesis_build target parent c stack entrypoint h = (t, Raise e) →
  gather_error c e ∧ some_call_failed t.
Proof.
  intros H. synthesis_cases H.
  all: try (apply gather_Raise in Hg as [? ?]; by split).
  all: split; [right; eauto|find_failed_call].
Qed.

(** Events that are neither a build nor a tag, a copy, a removal or a push *)
Definition quiet_event (e : Event) : Prop :=
  match e with
  | build_image_call _ _ | tag_image_call _ _ _
  | copy_active_configuration_call _ _ _ | rmtree_call _ _
  | push_image_call _ _ _ => False
  | _ => True
  end.

Lemma quiet_calls (t : list Event) :
  Forall quiet_event t →
  build_calls t = [] ∧ tag_calls t = [] ∧ copy_calls t = [] ∧
  rmtree_calls t = [] ∧ push_calls t = [].
Proof.
  induction 1 as [|e t He _ (IH1 & IH2 & IH3 & IH4 & IH5)]; [done|].
  unfold build_calls, tag_calls, copy_calls, rmtree_calls, push_calls in *.
  by destruct e.
Qed.

Lemma gather_event_quiet (e : Event) : gather_event e → quiet_event e.
Proof. by destruct e. Qed.

Lemma elem_of_build_calls (t : list Event) call answer :
  build_image_call call answer ∈ t → call ∈ build_calls t.
Proof.
  induction t as [|e t IH]; [by intros ?%elem_of_nil|].
  intros [<-|Hin]%elem_of_cons; unfold build_calls in *; simpl.
  - apply list_elem_of_here.
  - destruct e; try (by apply IH). apply list_elem_of_further. by apply IH.
Qed.

Lemma elem_of_copy_calls (t : list Event) path load_config_path answer :
  copy_active_configuration_call path load_config_path answer ∈ t →
  path ∈ copy_calls t.
Proof.
  induction t as [|e t IH]; [by intros ?%elem_of_nil|].
  intros [<-|Hin]%elem_of_cons; unfold copy_calls in *; simpl.
  - apply list_elem_of_here.
  - destruct e; try (by apply IH). apply list_elem_of_further. by apply IH.
Qed.

(** The events before the [with] statement of [synthesis_build], and the
    [with] statement itself when the run gets there. *)
Lemma synthesis_build_split target parent (c : DockerConfiguration rt)
    stack entrypoint h t r :
  synthesis_build target parent c stack entrypoint h = (t, r) →
  ∃ before final,
    t = before ++ final ∧ Forall quiet_event before ∧
    ((final = [] ∧ ∃ e, r = Raise e ∧ gather_error c e ∧
                        some_call_failed before) ∨
     ∃ files root pull,
       final_build c root
         (synthesis_call target parent c entrypoint files root pull)
         (h ++ before) = (final, r) ∧
       (pull = false ↔
          parent = DEFAULT_DOCKER_PARENT_IMAGE rt ∨
          is_local_image_call parent (Returns true) ∈ before)).
Proof.
  rewrite synthesis_build_run.
  destruct (_gather_requirements_files w c stack h) as [tg [files|e]] eqn:Hg.
  2: { intros [= <- <-]. exists tg, []. rewrite app_nil_r.
       pose proof (gather_emits _ _ _ _ _ Hg) as Hq.
       split_and!; [done|by eapply Forall_impl, gather_event_quiet|].
       left. split; [done|]. exists e. split; [done|]. by eapply gather_Raise. }
  pose proof (gather_emits _ _ _ _ _ Hg) as Hge.
  assert (Forall quiet_event tg) as Hq
    by (by eapply Forall_impl, gather_event_quiet).
  assert (∀ a, is_local_image_call parent a ∉ tg) as Hno.
  { intros a Hin. rewrite Forall_forall in Hge. by apply Hge in Hin. }
  rewrite pull_step_run.
  destruct (bool_decide (parent = DEFAULT_DOCKER_PARENT_IMAGE rt)) eqn:Hdef.
  - apply bool_decide_eq_true in Hdef.
    rewrite root_step_run.
    destruct (copy_files c || copy_profile c).
    + destruct (get_source_root_path w _) as [root|f] eqn:Hroot.
      * destruct (final_build _ _ _ _) as [tw r'] eqn:Hfinal.
        intros [= <- <-].
        exists (tg ++ [] ++ [get_source_root_path_call (Returns root)]), tw.
        split_and!; [by rewrite <-!app_assoc| |].
        { apply Forall_app; split; [done|]. by repeat constructor. }
        right. exists files, (Some root), false. split; [|naive_solver].
        by rewrite !app_assoc in *.
      * intros [= <- <-]. eexists _, []. rewrite app_nil_r.
        split_and!; [done| |].
        { apply Forall_app; split; [done|]. by repeat constructor. }
        left. split; [done|]. eexists. split_and!; [done|right; eauto|].
        find_failed_call.
    + destruct (final_build _ _ _ _) as [tw r'] eqn:Hfinal.
      intros [= <- <-]. exists tg, tw. split_and!; [done..|].
      right. exists files, None, false. split; [|naive_solver].
      by rewrite !app_nil_r in Hfinal.
  - apply bool_decide_eq_false in Hdef.
    destruct (is_local_image w (h ++ tg) parent) as [is_local|f] eqn:Hlocal.
    2: { intros [= <- <-]. eexists _, []. rewrite app_nil_r.
         split_and!; [done| |].
         { apply Forall_app; split; [done|]. by repeat constructor. }
         left. split; [done|]. eexists. split_and!; [done|right; eauto|].
         find_failed_call. }
    assert (∀ tr : list Event,
              Forall (λ e, ∃ a, e = get_source_root_path_call a) tr →
              negb is_local = false ↔
              parent = DEFAULT_DOCKER_PARENT_IMAGE rt ∨
              is_local_image_call parent (Returns true)
              ∈ tg ++ [is_local_image_call parent (Returns is_local)] ++ tr)
      as Hpull.
    { intros tr Htr. rewrite !elem_of_app, list_elem_of_singleton. split.
      - destruct is_local; [|done]. intros _. right; right; by left.
      - intros [?|[?%Hno|[[= <-]|Hin]]]; try done.
        rewrite Forall_forall in Htr. by apply Htr in Hin as [a ?]. }
    rewrite root_step_run.
    destruct (copy_files c || copy_profile c).
    + destruct (get_source_root_path w _) as [root|f] eqn:Hroot.
      * destruct (final_build _ _ _ _) as [tw r'] eqn:Hfinal.
        intros [= <- <-].
        eexists (tg ++ [_] ++ [get_source_root_path_call (Returns root)]), tw.
        split_and!; [by rewrite <-!app_assoc| |].
        { apply Forall_app; split; [done|]. by repeat constructor. }
        right. exists files, (Some root), (negb is_local).
        split; [by rewrite !app_assoc in *|].
        apply Hpull. repeat constructor. eauto.
      * intros [= <- <-]. eexists _, []. rewrite app_nil_r.
        split_and!; [done| |].
        { apply Forall_app; split; [done|]. by repeat constructor. }
        left. split; [done|]. eexists. split_and!; [done|right; eauto|].
        find_failed_call.
    + destruct (final_build _ _ _ _) as [tw r'] eqn:Hfinal.
      intros [= <- <-].
      eexists (tg ++ [_]), tw.
      split_and!; [by rewrite <-!app_assoc, ?app_nil_r| |].
      { apply Forall_app; split; [done|]. by repeat constructor. }
      right. exists files, None, (negb is_local).
      split; [by rewrite ?app_nil_r, ?app_assoc in *|].
      specialize (Hpull [] ltac:(constructor)). by rewrite app_nil_r in Hpull.
Qed.

(** The [with] statement: a plain build without [copy_profile]; with it,
    the copy, the build if the copy succeeded, and the removal. *)
Lemma final_build_shape (c : DockerConfiguration rt) root call h final r :
  final_build c root call h = (final, r) →
  (copy_profile c = false ∧
   ∃ built, final = [build_image_call call built] ∧
            r = result_of_outcome built) ∨
  (copy_profile c = true ∧ root = None ∧ final = [] ∧
   r = Raise (Propagated (OtherError "TypeError"))) ∨
  (copy_profile c = true ∧
   ∃ root_path copied body removal,
     root = Some root_path ∧
     final = [copy_active_configuration_call (profile_copy_path root_path)
                DOCKER_IMAGE_ZENML_CONFIG_PATH copied]
             ++ body
             ++ [rmtree_call (profile_copy_path root_path) removal] ∧
     ((body = [] ∧ ∃ f, copied = Fails f ∧ ∃ e, r = Raise e) ∨
      (copied = Returns () ∧
       ∃ built, body = [build_image_call call built] ∧
                (removal = Returns () → r = result_of_outcome built))) ∧
     (r = Ok () → removal = Returns ())).
Proof.
  rewrite final_build_run. destruct (copy_profile c).
  2: { intros [= <- <-]. left. eauto. }
  destruct root as [root_path|].
  2: { intros [= <- <-]. right; left. done. }
  rewrite include_active_profile_run. cbv zeta.
  destruct (copy_active_configuration w h _ _) as [[]|f] eqn:Hcopy.
  - destruct (rmtree w _ _) as [[]|f'] eqn:Hrm; intros [= <- <-];
      right; right; (split; [done|]);
      eexists _, _, [_], _; (split_and!; [done|done| |done]);
      right; (split; [done|]); eexists; split; done.
  - destruct (rmtree w _ _) as [[]|f'] eqn:Hrm; intros [= <- <-];
      right; right; (split; [done|]);
      eexists _, _, [], _; (split_and!; [done|done| |done]);
      left; eauto.
Qed.

(** The copy of the profile inside [synthesis_build]: it takes
    [copy_profile], only quiet events come before it, and the removal of the
    same path ends the run, after the build if there was one. *)
Lemma synthesis_build_profile target parent (c : DockerConfiguration rt)
    stack entrypoint h t r path load_config_path copied :
  synthesis_build target parent c stack entrypoint h = (t, r) →
  copy_active_configuration_call path load_config_path copied ∈ t →
  copy_profile c = true ∧
  ∃ before body removal,
    t = before
        ++ [copy_active_configuration_call path load_config_path copied]
        ++ body ++ [rmtree_call path removal] ∧
    Forall quiet_event before ∧
    ((body = [] ∧ ∃ f, copied = Fails f ∧ ∃ e, r = Raise e) ∨
     (copied = Returns () ∧
      ∃ files root pull built,
        body = [build_image_call
                  (synthesis_call target parent c entrypoint files root pull)
                  built] ∧
        (removal = Returns () → r = result_of_outcome built))) ∧
    (r = Ok () → removal = Returns ()).
Proof.
  intros (before & final & -> & Hq & Hfinal)%synthesis_build_split Hin.
  apply elem_of_app in Hin as [Hin|Hin].
  { apply elem_of_copy_calls in Hin. apply quiet_calls in Hq as (_&_&Hc&_).
    rewrite Hc in Hin. by apply elem_of_nil in Hin. }
  destruct Hfinal as [[-> _]|(files & root & pull & Hfinal & _)];
    [by apply elem_of_nil in Hin|].
  apply final_build_shape in Hfinal
    as [(_ & built & -> & _)|[(_ & _ & -> & _)|(Hprofile & Hfinal)]].
  { by apply list_elem_of_singleton in Hin. }
  { by apply elem_of_nil in Hin. }
  destruct Hfinal as (root_path & copied' & body & removal & -> & -> & Hbody & Hr).
  split; [done|].
  assert (path = profile_copy_path root_path ∧
          load_config_path = DOCKER_IMAGE_ZENML_CONFIG_PATH ∧
          copied = copied') as (-> & -> & ->).
  { rewrite !elem_of_app, !list_elem_of_singleton in Hin.
    destruct Hin as [[= -> -> ->]|[Hin|?]]; [done| |done].
    destruct Hbody as [[-> _]|(_ & built & -> & _)].
    - by apply elem_of_nil in Hin.
    - by apply list_elem_of_singleton in Hin. }
  exists before, body, removal. split_and!; [done..| |done].
  destruct Hbody as [?|(? & built & ? & ?)]; [by left|].
  right. split; [done|]. eauto 10.
Qed.

Lemma custom_then_synthesis image_name custom_dockerfile
    (c : DockerConfiguration rt) (m : M unit) h t r :
  let call := custom_build_call image_name custom_dockerfile c in
  (custom_build image_name custom_dockerfile c;; m) h = (t, r) →
  (∃ f, t = [build_image_call call (Fails f)] ∧ r = Raise (Propagated f)) ∨
  (∃ ts, t = build_image_call call (Returns ()) :: ts ∧
         m (h ++ [build_image_call call (Returns ())]) = (ts, r)).
Proof.
  intros call. rewrite run_bind, custom_build_run. fold call.
  destruct (custom_build_answer h _ _ _) as [[]|f]; cbn [result_of_outcome].
  - destruct (m _) as [ts r'] eqn:Hm. intros [= <- <-]. right. eauto.
  - intros [= <- <-]. left. eauto.
Qed.

Lemma or_else_falsy (a : option string) (b : string) :
  truthy a = false → or_else a b = b.
Proof.
  unfold or_else, if_truthy. by destruct a as [[|]|].
Qed.

Lemma if_truthy_falsy (a : option string) :
  truthy a = false → if_truthy a = None.
Proof. unfold if_truthy. by destruct a as [[|]|]. Qed.

Lemma if_truthy_Some (a : option string) (s : string) :
  if_truthy a = Some s ↔ a = Some s ∧ s ≠ "".
Proof.
  unfold if_truthy. destruct a as [s'|]; [|naive_solver].
  destruct (truthy s') eqn:Hs.
  - apply truthy_string in Hs. naive_solver.
  - assert (s' = "") by (by destruct s'). naive_solver.
Qed.

(** ** The build strategy *)

(** C1, as the code has it. With nothing to layer on the parent image, that
    is when [dockerfile], [requirements], [required_integrations],
    [replicate_local_python_environment], [environment] and the entrypoint
    are unset or empty and [install_stack_requirements], [copy_files] and
    [copy_profile] are false, and with no parent image on the configuration
    or on the builder, [build_docker_image] raises its [ValueError] before
    it calls any collaborator: the log stays empty, so nothing is built or
    tagged. *)
Theorem insufficient_build_configuration
    self target pipeline_name (c : DockerConfiguration rt) stack entrypoint h :
  truthy (dockerfile c) = false →
  truthy (requirements c) = false →
  required_integrations c = [] →
  replicate_local_python_environment c = None →
  install_stack_requirements c = false →
  environment c = [] →
  copy_files c = false →
  copy_profile c = false →
  truthy entrypoint = false →
  truthy (parent_image c) = false →
  truthy (docker_parent_image self) = false →
  build_docker_image w self target pipeline_name c stack entrypoint h
    = ([], Raise InsufficientBuildConfiguration).
Proof.
  intros Hd Hr Hi Hl Hs He Hf Hp Hep Hpi Hbi.
  rewrite build_docker_image_stages, (if_truthy_falsy _ Hd).
  unfold requires_zenml_build, resolved_parent_image.
  rewrite Hr, Hi, Hl, Hs, He, Hf, Hp, Hep. simpl.
  rewrite (or_else_falsy _ _ Hpi), (or_else_falsy _ _ Hbi).
  by rewrite bool_decide_eq_true_2.
Qed.

(** C2. A configuration constructed without arguments has
    [install_stack_requirements], [copy_files] and [copy_profile] set, so it
    requires a build whatever the entrypoint, builder, stack and world:
    [build_docker_image] runs the synthesis build on the resolved parent
    image. It never raises the [ValueError] of an insufficient
    configuration: it returns after exactly one build call, the one of the
    generated Dockerfile under the target name, and no tag call, or it
    raises what a failed call of a collaborator raised. *)
Theorem default_configuration_builds self target pipeline_name stack entrypoint h :
  let c := DockerConfiguration_default rt in
  requires_zenml_build c entrypoint = true ∧
  build_docker_image w self target pipeline_name c stack entrypoint h
    = synthesis_build target (resolved_parent_image self c)
        c stack entrypoint h ∧
  match build_docker_image w self target pipeline_name c stack entrypoint h with
  | (t, Ok _) =>
      ∃ files root pull,
        build_calls t =
          [synthesis_call target (resolved_parent_image self c)
             c entrypoint files root pull] ∧
        tag_calls t = []
  | (t, Raise e) =>
      e ≠ InsufficientBuildConfiguration ∧ (∃ f, e = Propagated f) ∧
      some_call_failed t
  end.
Proof.
  intros c. assert (requires_zenml_build c entrypoint = true) as Hreq by done.
  split; [done|].
  assert (build_docker_image w self target pipeline_name c stack entrypoint h
          = synthesis_build target (resolved_parent_image self c)
              c stack entrypoint h) as ->.
  { by rewrite build_docker_image_stages, Hreq. }
  split; [done|].
  destruct (synthesis_build _ _ _ _ _ _) as [t [[]|e]] eqn:Hrun.
  - apply synthesis_build_calls in Hrun as (Ht & _ & [[? _]|Hb]); [done|].
    destruct Hb as (files & root & pull & Hb). eauto 10.
  - apply synthesis_build_error in Hrun as [[[_ [? [=]]]|[f ->]] ?].
    split_and!; [done|eauto|done].
Qed.

Lemma requires_zenml_build_false (c : DockerConfiguration rt) entrypoint :
  truthy (requirements c) = false → required_integrations c = [] →
  replicate_local_python_environment c = None →
  install_stack_requirements c = false → environment c = [] →
  copy_files c = false → copy_profile c = false →
  truthy entrypoint = false →
  requires_zenml_build c entrypoint = false.
Proof.
  intros Hr Hi Hl Hs He Hf Hp Hep. unfold requires_zenml_build.
  by rewrite Hr, Hi, Hl, Hs, He, Hf, Hp, Hep.
Qed.

Lemma requires_zenml_build_true (c : DockerConfiguration rt) entrypoint :
  truthy (requirements c) = true ∨ required_integrations c ≠ [] ∨
  is_Some (replicate_local_python_environment c) ∨
  install_stack_requirements c = true ∨ environment c ≠ [] ∨
  copy_files c = true ∨ copy_profile c = true ∨ truthy entrypoint = true →
  requires_zenml_build c entrypoint = true.
Proof.
  unfold requires_zenml_build, any. cbn [foldr].
  intros [H|[H|[H|[H|[H|[H|[H|H]]]]]]].
  - by rewrite H.
  - destruct (required_integrations c); [done|]. cbn. by rewrite !orb_true_r.
  - destruct H as [method ->]. cbn. by rewrite !orb_true_r.
  - rewrite H. cbn. by rewrite !orb_true_r.
  - destruct (environment c); [done|]. cbn. by rewrite !orb_true_r.
  - rewrite H. cbn. by rewrite !orb_true_r.
  - rewrite H. cbn. by rewrite !orb_true_r.
  - rewrite H. cbn. by rewrite !orb_true_r.
Qed.

(** C3, as the code has it. Let [dockerfile] be set, to a path that is not
    empty. If [requirements], [required_integrations],
    [replicate_local_python_environment], [environment] and the entrypoint
    are unset or empty and [install_stack_requirements], [copy_files] and
    [copy_profile] are false, the whole run is one build call, that of the
    custom Dockerfile under the target name, and the run ends as that call
    does. If one of the eight holds, the run starts with the build of the
    custom Dockerfile under [zenml-intermediate-build:{pipeline_name}]. Then
    either exactly two build calls are made, the second one building, under
    the target name, a generated Dockerfile whose first line is the [FROM]
    line of the intermediate name and which holds the [ENV] line of every
    environment variable; or the custom build is the only build call, the
    run raises, and a call of its log failed. *)
Theorem custom_dockerfile_builds
    self target pipeline_name (c : DockerConfiguration rt) stack entrypoint h
    custom_dockerfile :
  dockerfile c = Some custom_dockerfile → custom_dockerfile ≠ "" →
  let run :=
    build_docker_image w self target pipeline_name c stack entrypoint h in
  let intermediate := "zenml-intermediate-build:" +:+ pipeline_name in
  (truthy (requirements c) = false → required_integrations c = [] →
   replicate_local_python_environment c = None →
   install_stack_requirements c = false → environment c = [] →
   copy_files c = false → copy_profile c = false →
   truthy entrypoint = false →
   ∃ built,
     run = ([build_image_call
               (custom_build_call target custom_dockerfile c) built],
            result_of_outcome built)) ∧
  (truthy (requirements c) = true ∨ required_integrations c ≠ [] ∨
   is_Some (replicate_local_python_environment c) ∨
   install_stack_requirements c = true ∨ environment c ≠ [] ∨
   copy_files c = true ∨ copy_profile c = true ∨ truthy entrypoint = true →
   (∃ built rest,
      run.1 = build_image_call
                (custom_build_call intermediate custom_dockerfile c) built
              :: rest) ∧
   ((∃ files root pull lines,
       build_calls run.1 =
         [custom_build_call intermediate custom_dockerfile c;
          synthesis_call target intermediate c entrypoint files root pull] ∧
       _generate_zenml_pipeline_dockerfile intermediate c (fst <$> files)
         entrypoint = ("FROM " +:+ intermediate) :: lines ∧
       ∀ kv, kv ∈ environment c → env_line kv ∈ lines) ∨
    (build_calls run.1 = [custom_build_call intermediate custom_dockerfile c] ∧
     ∃ e, run.2 = Raise e ∧ some_call_failed run.1))).
Proof.
  intros Hd Hne run intermediate.
  assert (if_truthy (dockerfile c) = Some custom_dockerfile) as Hif
    by (by apply if_truthy_Some).
  subst run. rewrite build_docker_image_stages, Hif. split.
  { intros Hr Hi Hl Hs He Hf Hp Hep.
    rewrite requires_zenml_build_false by done.
    eexists. by rewrite custom_build_run. }
  intros Hsome. rewrite (requires_zenml_build_true _ _ Hsome).
  fold intermediate.
  match goal with
  | |- context [build_calls (?m h).1] => destruct (m h) as [t r] eqn:Hrun
  end.
  cbn [fst snd].
  apply custom_then_synthesis in Hrun as [(f & -> & ->)|(ts & -> & Hrun)].
  { split; [by eauto|]. right. split; [done|].
    eexists. split; [done|]. find_failed_call. }
  split; [by eauto|].
  change (build_calls (build_image_call ?call _ :: ts))
    with (call :: build_calls ts).
  pose proof Hrun as Hcalls.
  apply synthesis_build_calls in Hcalls
    as (_ & _ & [[Hr ->]|(files & root & pull & ->)]).
  - right. split; [done|]. destruct r as [[]|e]; [done|].
    exists e. split; [done|].
    apply synthesis_build_error in Hrun as [_ Hfailed].
    by apply (failed_app_r [_]).
  - left.
    exists files, root, pull,
      (["WORKDIR /app"] ++ profile_env_lines c ++ (env_line <$> environment c)
       ++ concat (install_pair <$> (fst <$> files)) ++ copy_lines c
       ++ ["RUN chmod -R a+rw ."] ++ entrypoint_lines entrypoint).
    split; [done|]. rewrite generate_layout. split; [reflexivity|].
    intros kv Hkv. rewrite !elem_of_app. right; right; left.
    apply list_elem_of_fmap. eauto.
Qed.

(** A run of [build_docker_image] is the build of the custom Dockerfile, a
    tag, or nothing, followed by a run of [synthesis_build] on the effective
    parent image if the configuration requires a build. *)
Lemma build_docker_image_synthesis
    self target pipeline_name (c : DockerConfiguration rt) stack entrypoint
    h t r :
  build_docker_image w self target pipeline_name c stack entrypoint h = (t, r) →
  (∃ first, t = first ∧ length first ≤ 1 ∧ copy_calls first = [] ∧
            rmtree_calls first = [] ∧
            Forall (λ e, match e with
                         | build_image_call call _ => is_synthesis call = false
                         | tag_image_call _ _ _ => True
                         | _ => False
                         end) first) ∨
  (requires_zenml_build c entrypoint = true ∧
   ∃ first ts,
     t = first ++ ts ∧
     copy_calls first = [] ∧ rmtree_calls first = [] ∧
     Forall (λ e, ∃ call built, e = build_image_call call built ∧
                                is_synthesis call = false) first ∧
     synthesis_build target (effective_parent_image self pipeline_name c)
       c stack entrypoint (h ++ first) = (ts, r)).
Proof.
  rewrite build_docker_image_stages. unfold effective_parent_image.
  destruct (if_truthy (dockerfile c)) as [custom_dockerfile|];
    destruct (requires_zenml_build c entrypoint).
  - intros [(f & -> & ->)|(ts & -> & Hrun)]%custom_then_synthesis.
    + left. eexists. split_and!; [done|simpl; lia|done|done|].
      by repeat constructor.
    + right. split; [done|]. eexists [_], ts. split_and!; [done..| |done].
      repeat constructor. eauto.
  - rewrite custom_build_run. intros [= <- <-].
    left. eexists. split_and!; [done|simpl; lia|done|done|].
    by repeat constructor.
  - intros Hrun. right. split; [done|]. exists [], t.
    rewrite app_nil_r. by split_and!.
  - destruct (bool_decide _).
    + intros [= <- <-]. left. exists []. split_and!; [done|simpl; lia|done..].
    + unfold docker_utils_tag_image. rewrite run_perform. intros [= <- <-].
      left. eexists. split_and!; [done|simpl; lia|done|done|].
      by repeat constructor.
Qed.


(** C9. If a run of [build_docker_image] copies the active profile, which
    takes [copy_profile], then the log of the run ends with the removal of
    that copy: after the copy comes the inner build call if the copy
    succeeded, whether the build returns or raises, and then the removal, as
    the last event before [build_docker_image] returns or raises. The copy
    and the removal are the only ones of the run, and they name the same
    path. *)
Theorem profile_copy_is_removed
    self target pipeline_name (c : DockerConfiguration rt) stack entrypoint
    h t r path load_config_path copied :
  build_docker_image w self target pipeline_name c stack entrypoint h = (t, r) →
  copy_active_configuration_call path load_config_path copied ∈ t →
  copy_profile c = true ∧
  ∃ before body removal,
    t = before
        ++ [copy_active_configuration_call path load_config_path copied]
        ++ body ++ [rmtree_call path removal] ∧
    copy_calls before = [] ∧ rmtree_calls before = [] ∧
    ((body = [] ∧ ∃ f, copied = Fails f ∧ ∃ e, r = Raise e) ∨
     (copied = Returns () ∧
      ∃ call built,
        body = [build_image_call call built] ∧
        is_synthesis call = true ∧ call_image_name call = target ∧
        (removal = Returns () → r = result_of_outcome built))) ∧
    copy_calls t = [path] ∧ rmtree_calls t = [path] ∧
    (r = Ok () → removal = Returns ()).
Proof.
  intros Hrun Hin.
  apply build_docker_image_synthesis in Hrun
    as [(first & -> & _ & Hc & _ & _)
       |(_ & first & ts & -> & Hc & Hr & Hfirst & Hrun)].
  { apply elem_of_copy_calls in Hin. rewrite Hc in Hin.
    by apply elem_of_nil in Hin. }
  apply elem_of_app in Hin as [Hin|Hin].
  { apply elem_of_copy_calls in Hin. rewrite Hc in Hin.
    by apply elem_of_nil in Hin. }
  eapply synthesis_build_profile in Hrun
    as (Hprofile & before & body & removal & -> & Hq & Hbody & Hret); [|done].
  split; [done|].
  apply quiet_calls in Hq as (_ & _ & Hqc & Hqr & _).
  exists (first ++ before), body, removal.
  assert (copy_calls body = [] ∧ rmtree_calls body = []) as [Hbc Hbr].
  { by destruct Hbody as [[-> _]|(_ & ? & ? & ? & ? & -> & _)]. }
  split_and!.
  - by rewrite <-!app_assoc.
  - by rewrite copy_calls_app, Hc, Hqc.
  - by rewrite rmtree_calls_app, Hr, Hqr.
  - destruct Hbody as [?|(? & files & root & pull & built & -> & ?)];
      [by left|].
    right. split; [done|]. eexists _, built. by split_and!.
  - rewrite !copy_calls_app, Hc, Hqc, Hbc. done.
  - rewrite !rmtree_calls_app, Hr, Hqr, Hbr. done.
  - done.
Qed.

(** ** Build and push *)

Lemma build_docker_image_error
    self target pipeline_name (c : DockerConfiguration rt) stack entrypoint
    h t e :
  build_docker_image w self target pipeline_name c stack entrypoint h
    = (t, Raise e) →
  e = InsufficientBuildConfiguration ∨ e = UnableToExportLocalPackages
  ∨ ∃ f, e = Propagated f.
Proof.
  rewrite build_docker_image_stages.
  destruct (if_truthy (dockerfile c)) as [custom_dockerfile|];
    destruct (requires_zenml_build c entrypoint).
  - intros [(f & -> & [= ->])|(ts & -> & Hrun)]%custom_then_synthesis;
      [by eauto|].
    apply synthesis_build_error in Hrun as [[[-> _]|[f ->]] _]; eauto.
  - rewrite custom_build_run.
    destruct (custom_build_answer _ _ _ _) as [[]|f]; intros [= <- <-]; eauto.
  - intros Hrun.
    apply synthesis_build_error in Hrun as [[[-> _]|[f ->]] _]; eauto.
  - case_bool_decide; [intros [= <- <-]; eauto|].
    unfold docker_utils_tag_image. rewrite run_perform.
    destruct (tag_image w _ _ _) as [[]|f]; intros [= <- <-]; eauto.
Qed.

Lemma build_docker_image_pushes_nothing
    self target pipeline_name (c : DockerConfiguration rt) stack entrypoint
    h t r :
  build_docker_image w self target pipeline_name c stack entrypoint h = (t, r) →
  push_calls t = [].
Proof.
  intros Hbuild.
  apply build_docker_image_synthesis in Hbuild
    as [(first & -> & _ & _ & _ & Hfirst)
       |(_ & first & ts & -> & _ & _ & Hfirst & Hrun)].
  - induction Hfirst as [|e l He _ IH]; [done|].
    unfold push_calls in *. by destruct e.
  - apply synthesis_build_calls in Hrun as (_ & Hp & _).
    rewrite push_calls_app, Hp, app_nil_r.
    clear -Hfirst. induction Hfirst as [|e l (? & ? & -> & _) _ IH]; done.
Qed.

End Properties.

(** * The properties on concrete runs *)

(** C1, at [bare]: nothing is asked for, so the [ValueError] is raised. *)
Lemma insufficient_build_configuration_witness :
  build_docker_image calm builder "localhost:5000/zenml:p" "p" bare
    local_stack None []
  = ([], Raise InsufficientBuildConfiguration).
Proof.
  by apply (insufficient_build_configuration cpython calm builder
              "localhost:5000/zenml:p" "p" bare local_stack None []).
Defined.

(** C1 as it was stated fails at [bare_with_stack_requirements]: every field
    that the statement lists is unset, empty or false, no entrypoint and no
    parent image is given, and yet the run returns after one build call,
    since [install_stack_requirements] asks for a build. *)
Lemma install_stack_requirements_asks_for_a_build :
  let c := bare_with_stack_requirements in
  dockerfile c = None ∧ requirements c = None ∧
  required_integrations c = [] ∧ environment c = [] ∧
  copy_files c = false ∧ copy_profile c = false ∧
  parent_image c = None ∧ docker_parent_image builder = None ∧
  let run := build_docker_image calm builder "localhost:5000/zenml:p" "p" c
               local_stack None [] in
  run.2 = Ok () ∧ run.2 ≠ Raise InsufficientBuildConfiguration ∧
  length (build_calls run.1) = 1.
Proof. vm_compute. by split_and!. Qed.

(** C3, with the custom Dockerfile alone, and with the custom Dockerfile and
    an environment variable. *)
Lemma custom_dockerfile_builds_witness :
  (∃ built,
     build_docker_image calm builder "localhost:5000/zenml:p" "p" custom_only
       local_stack None []
     = ([build_image_call
           (custom_build_call cpython "localhost:5000/zenml:p"
              "Dockerfile.custom" custom_only) built],
        result_of_outcome built)) ∧
  (let c := custom_with_env in
   let run := build_docker_image calm builder "localhost:5000/zenml:p" "p" c
                local_stack None [] in
   let intermediate := "zenml-intermediate-build:p" in
   (∃ built rest,
      run.1 = build_image_call
                (custom_build_call cpython intermediate "Dockerfile.custom" c)
                built
              :: rest) ∧
   ((∃ files root pull lines,
       build_calls run.1 =
         [custom_build_call cpython intermediate "Dockerfile.custom" c;
          synthesis_call cpython "localhost:5000/zenml:p" intermediate c None
            files root pull] ∧
       _generate_zenml_pipeline_dockerfile intermediate c (fst <$> files) None
         = ("FROM " +:+ intermediate) :: lines ∧
       ∀ kv, kv ∈ environment c → env_line kv ∈ lines) ∨
    (build_calls run.1
       = [custom_build_call cpython intermediate "Dockerfile.custom" c] ∧
     ∃ e, run.2 = Raise e ∧ some_call_failed cpython run.1))).
Proof.
  split.
  - by apply (proj1 (custom_dockerfile_builds cpython calm builder
                       "localhost:5000/zenml:p" "p" custom_only local_stack
                       None [] "Dockerfile.custom" eq_refl ltac:(done))).
  - apply (proj2 (custom_dockerfile_builds cpython calm builder
                    "localhost:5000/zenml:p" "p" custom_with_env local_stack
                    None [] "Dockerfile.custom" eq_refl ltac:(done))).
    do 4 right. by left.
Defined.

(** C3 as it was stated fails when the build of the custom Dockerfile fails:
    [dockerfile] is set and an environment variable asks for the second
    build, and yet the run makes one build call, not two, and raises. *)
Lemma failed_custom_build_is_the_only_build :
  let c := custom_with_env in
  dockerfile c = Some "Dockerfile.custom" ∧ environment c ≠ [] ∧
  let run := build_docker_image failing_custom_build builder
               "localhost:5000/zenml:p" "p" c local_stack None [] in
  build_calls run.1
    = [custom_build_call cpython "zenml-intermediate-build:p"
         "Dockerfile.custom" c] ∧
  length (build_calls run.1) ≠ 2 ∧
  run.2 = Raise (Propagated (OtherError "BuildError")).
Proof. vm_compute. by split_and!. Qed.

(** C4 as it was stated fails at [bare_with_pip_freeze] when [pip freeze]
    prints nothing: the snapshot is written as an empty file. *)
Lemma empty_local_snapshot_is_kept :
  _gather_requirements_files calm bare_with_pip_freeze local_stack []
  = ([check_output_call "pip freeze" (Returns "")],
     Ok [(".zenml_local_requirements", "")]).
Proof. vm_compute. reflexivity. Qed.

(** C6, the second part at an entrypoint. *)
Lemma dockerfile_layout_witness :
  _generate_zenml_pipeline_dockerfile "python:3.8" custom_with_env
    [".zenml_user_requirements"] (Some "python -m run")
  = _generate_zenml_pipeline_dockerfile "python:3.8" custom_with_env
      [".zenml_user_requirements"] None
    ++ ["ENTRYPOINT python -m run"].
Proof.
  by apply (dockerfile_layout cpython "python:3.8" custom_with_env
              [".zenml_user_requirements"] None).
Defined.


(** C8 as it was stated fails at [bare] on a stack with a registry: the
    method raises, before anything is built, although the stack has a
    container registry; the exception is the [ValueError] of
    [build_docker_image]. *)
Lemma insufficient_configuration_with_a_registry :
  is_Some (container_registry local_stack) ∧
  build_and_push_docker_image calm builder "p" bare local_stack ∅ None []
  = ([], ∅, Raise InsufficientBuildConfiguration).
Proof. split; [by eexists|]. vm_compute. reflexivity. Qed.

(** C9, with the default configuration in a world where the build of the
    generated Dockerfile fails: the copy of the profile is removed before
    the error leaves [build_docker_image]. *)
Lemma profile_copy_is_removed_witness :
  let c := DockerConfiguration_default cpython in
  let run := build_docker_image failing_build builder "localhost:5000/zenml:p"
               "p" c local_stack None [] in
  let copy := copy_active_configuration_call (rt := cpython)
                "/repo/.zenconfig" "/app/.zenconfig" (Returns ()) in
  copy_profile c = true ∧
  ∃ before body removal,
    run.1 = before ++ [copy] ++ body
            ++ [rmtree_call "/repo/.zenconfig" removal] ∧
    copy_calls before = [] ∧ rmtree_calls before = [] ∧
    ((body = [] ∧ ∃ f, Returns () = Fails f ∧ ∃ e, run.2 = Raise e) ∨
     (Returns () = Returns () ∧
      ∃ call built,
        body = [build_image_call call built] ∧
        is_synthesis call = true ∧
        call_image_name call = "localhost:5000/zenml:p" ∧
        (removal = Returns () → run.2 = result_of_outcome built))) ∧
    copy_calls run.1 = ["/repo/.zenconfig"] ∧
    rmtree_calls run.1 = ["/repo/.zenconfig"] ∧
    (run.2 = Ok () → removal = Returns ()).
Proof.
  intros c run copy.
  apply (profile_copy_is_removed cpython failing_build builder
           "localhost:5000/zenml:p" "p" c local_stack None [] run.1 run.2
           "/repo/.zenconfig" "/app/.zenconfig" (Returns ())).
  - reflexivity.
  - vm_compute. do 2 apply list_elem_of_further. apply list_elem_of_here.
Defined.

(** * Further properties of the builder *)

Section Further.
Context (rt : Runtime) (w : World rt).

Local Abbreviation M := (M rt).
Local Abbreviation Event := (Event rt).

(** ** The context manager *)

(** Whatever the body of the [with] statement is, [_include_active_profile]
    first copies the active configuration to [.zenconfig] under the build
    context root, runs the body only if the copy succeeded, and then removes
    the copy in every case, as its last call. It ends as the body did, or as
    the failed copy did, unless the removal fails: then the failure of the
    removal is what it raises. *)
Theorem include_active_profile_releases {A}
    (root load_config_path : string) (body : M A) h :
  let path := os_path_join root ".zenconfig" in
  let copied := copy_active_configuration w h path load_config_path in
  let copy := copy_active_configuration_call path load_config_path copied in
  let inner :=
    match copied with
    | Returns _ => body (h ++ [copy])
    | Fails f => ([], Raise (Propagated f))
    end in
  let removed := rmtree w (h ++ [copy] ++ inner.1) path in
  _include_active_profile w root load_config_path A body h =
    ([copy] ++ inner.1 ++ [rmtree_call path removed],
     match removed with
     | Returns _ => inner.2
     | Fails f => Raise (Propagated f)
     end).
Proof.
  intros path copied copy inner removed.
  unfold _include_active_profile, try_finally.
  change (os_path_join root (DOCKER_IMAGE_ZENML_CONFIG_DIR)) with path.
  rewrite run_bind.
  unfold GlobalConfiguration_copy_active_configuration, fileio_rmtree.
  rewrite !run_perform. fold copied. fold copy.
  subst inner removed. destruct copied as [[]|f]; cbn [result_of_outcome].
  - destruct (body (h ++ [copy])) as [tb rb]. cbn [fst snd].
    rewrite run_perform.
    by destruct (rmtree w _ path) as [[]|f'].
  - cbn [fst snd]. rewrite run_perform, !app_nil_r.
    by destruct (rmtree w _ path) as [[]|f'].
Qed.

(** ** Stopping at the first failed call *)

(** Every call of the log returned. *)
Definition all_returned (t : list Event) : Prop :=
  Forall (λ ev, event_failure rt ev = None) t.

(** The exception that the code raises when the call of [ev] fails. Only the
    export command is translated, and only for [CalledProcessError]. *)
Definition raised_by (ev : Event) (e : Exc) : Prop :=
  match ev with
  | check_output_call _ (Fails CalledProcessError) =>
      e = UnableToExportLocalPackages
  | _ => ∃ f, event_failure rt ev = Some f ∧ e = Propagated f
  end.

(** A computation that calls nothing after a failed call: its log holds a
    failed call only as its last event, and exactly when it raises. *)
Definition fail_fast {A} (R : Event → Exc → Prop) (m : M A) : Prop :=
  ∀ h t r, m h = (t, r) →
    match r with
    | Ok _ => all_returned t
    | Raise e => ∃ before ev, t = before ++ [ev] ∧ all_returned before ∧ R ev e
    end.

(** A failed call is propagated as it is. *)
Definition propagated (ev : Event) (e : Exc) : Prop :=
  ∃ f, event_failure rt ev = Some f ∧ e = Propagated f.

Lemma propagated_raised_by ev e :
  (∀ cmd a, ev ≠ check_output_call cmd a) → propagated ev e → raised_by ev e.
Proof. intros Hev. destruct ev; try done. by destruct (Hev cmd answer). Qed.

Lemma fail_fast_impl {A} (R R' : Event → Exc → Prop) (m : M A) :
  (∀ ev e, R ev e → R' ev e) → fail_fast R m → fail_fast R' m.
Proof.
  intros HR Hm h t r Hrun. specialize (Hm h t r Hrun).
  destruct r; [done|]. destruct Hm as (before & ev & ? & ? & ?). eauto 6.
Qed.

Lemma fail_fast_ret {A} R (a : A) : fail_fast R (mret a : M A).
Proof. intros h t r. rewrite run_ret. intros [= <- <-]. constructor. Qed.

Lemma fail_fast_perform {A} (answer : list Event → outcome A) event :
  (∀ a, event_failure rt (event (Returns a)) = None) →
  (∀ f, event_failure rt (event (Fails f)) = Some f) →
  fail_fast propagated (perform answer event).
Proof.
  intros Hret Hfail h t r. rewrite run_perform.
  destruct (answer h) as [a|f]; intros [= <- <-]; cbn [result_of_outcome].
  - by repeat constructor.
  - exists [], (event (Fails f)). split_and!; [done|constructor|].
    exists f. eauto.
Qed.

Lemma all_returned_app (t1 t2 : list Event) :
  all_returned (t1 ++ t2) ↔ all_returned t1 ∧ all_returned t2.
Proof. apply Forall_app. Qed.

Lemma fail_fast_bind {A B} R (m : M A) (f : A → M B) :
  fail_fast R m → (∀ a, fail_fast R (f a)) → fail_fast R (m ≫= f).
Proof.
  intros Hm Hf h t r. rewrite run_bind.
  destruct (m h) as [t1 [a|e]] eqn:Hrun; specialize (Hm _ _ _ Hrun).
  - destruct (f a (h ++ t1)) as [t2 r2] eqn:Hrun2.
    specialize (Hf _ _ _ _ Hrun2). intros [= <- <-].
    destruct r2 as [b|e].
    + by apply all_returned_app.
    + destruct Hf as (before & ev & -> & ? & ?).
      exists (t1 ++ before), ev. rewrite app_assoc.
      split_and!; [done|by apply all_returned_app|done].
  - by intros [= <- <-].
Qed.

Lemma fail_fast_fmap {A B} R (g : A → B) (m : M A) :
  fail_fast R m → fail_fast R (g <$> m).
Proof.
  intros Hm h t r. rewrite run_fmap.
  destruct (m h) as [t1 [a|e]] eqn:Hrun; specialize (Hm _ _ _ Hrun);
    by intros [= <- <-].
Qed.

Lemma fail_fast_mapM {A B} R (f : A → M B) (l : list A) :
  (∀ a, fail_fast R (f a)) → fail_fast R (mapM f l).
Proof.
  intros Hf. induction l as [|a l IH]; simpl.
  - apply fail_fast_ret.
  - apply fail_fast_bind; [done|]. intros b.
    apply fail_fast_bind; [done|]. intros bs. apply fail_fast_ret.
Qed.

(** A handler that only raises, maybe another exception *)
Lemma fail_fast_try_except {A} (R R' : Event → Exc → Prop)
    (m : M A) (translate : Exc → Exc) handler :
  (∀ e, handler e = raise (translate e)) →
  (∀ ev e, R ev e → R' ev (translate e)) →
  fail_fast R m → fail_fast R' (try_except m handler).
Proof.
  intros Hh HR Hm h t r. unfold try_except.
  destruct (m h) as [t1 [a|e]] eqn:Hrun; specialize (Hm _ _ _ Hrun).
  - by intros [= <- <-].
  - rewrite Hh. unfold raise. rewrite app_nil_r. intros [= <- <-].
    destruct Hm as (before & ev & ? & ? & ?). eauto 6.
Qed.

Lemma fail_fast_perform_event {A} (answer : list Event → outcome A) event :
  (∀ a, event_failure rt (event (Returns a)) = None) →
  fail_fast (λ ev e, ∃ f, ev = event (Fails f) ∧ e = Propagated f)
    (perform answer event).
Proof.
  intros Hret h t r. rewrite run_perform.
  destruct (answer h) as [a|f]; intros [= <- <-]; cbn [result_of_outcome].
  - by repeat constructor.
  - exists [], (event (Fails f)). split_and!; [done|constructor|eauto].
Qed.

Lemma gather_fail_fast (c : DockerConfiguration rt) stack :
  fail_fast raised_by (_gather_requirements_files w c stack).
Proof.
  assert (∀ {A} (answer : list Event → outcome A) event,
            (∀ a, event_failure rt (event (Returns a)) = None) →
            (∀ f, event_failure rt (event (Fails f)) = Some f) →
            (∀ a cmd b, event a ≠ check_output_call cmd b) →
            fail_fast raised_by (perform answer event)) as Hperform.
  { intros A answer event Hret Hfail Hne.
    eapply fail_fast_impl; [|by apply fail_fast_perform_event].
    intros ev e (f & -> & ->). apply propagated_raised_by; [by eauto|].
    exists f. eauto. }
  unfold _gather_requirements_files.
  apply fail_fast_bind; [|intros local].
  { destruct (replicate_local_python_environment c) as [method|];
      [|apply fail_fast_ret].
    apply fail_fast_bind; [|intros out; apply fail_fast_ret].
    eapply (fail_fast_try_except _ _ _
              (λ e, match e with
                    | Propagated CalledProcessError => UnableToExportLocalPackages
                    | _ => e
                    end)); [by intros [| | |[]]| |].
    2: { by apply fail_fast_perform_event. }
    intros ev e (f & -> & ->). destruct f; cbn; eauto. }
  apply fail_fast_bind; [|intros text].
  { destruct (requirements c) as [[path|packages]|]; try apply fail_fast_ret.
    apply fail_fast_fmap. by apply Hperform. }
  apply fail_fast_bind; [|intros per_integration].
  { apply fail_fast_mapM. intros name. by apply Hperform. }
  apply fail_fast_bind; [|intros U; apply fail_fast_ret].
  destruct (install_stack_requirements c); [|apply fail_fast_ret].
  apply fail_fast_bind; [|intros reqs; apply fail_fast_ret].
  by apply Hperform.
Qed.

(** [_gather_requirements_files] stops at the first call that fails: when it
    returns, every call of its log returned; when it raises, the failed call
    is the last event of the log, every call before it returned, and the
    exception is the one of the failed call, except that a
    [CalledProcessError] of the export command is raised as the
    [RuntimeError] of the method. *)
Theorem gather_stops_at_first_failure
    (c : DockerConfiguration rt) stack h t r :
  _gather_requirements_files w c stack h = (t, r) →
  match r with
  | Ok _ => all_returned t
  | Raise e =>
      ∃ before ev,
        t = before ++ [ev] ∧ all_returned before ∧
        match ev with
        | check_output_call _ (Fails CalledProcessError) =>
            e = UnableToExportLocalPackages
        | _ => ∃ f, event_failure rt ev = Some f ∧ e = Propagated f
        end
  end.
Proof. apply gather_fail_fast. Qed.

(** The same up to the [finally] clause: after the failed call, the log
    holds at most the removal of the profile copy, and a removal that fails
    decides the exception. *)
Definition stops_then_cleans (t : list Event) (e : Exc) : Prop :=
  ∃ before ev cleanup,
    t = before ++ [ev] ++ cleanup ∧ all_returned before ∧
    is_Some (event_failure rt ev) ∧
    match cleanup with
    | [] => raised_by ev e
    | [rmtree_call _ (Returns _)] => raised_by ev e
    | [rmtree_call _ (Fails f)] => e = Propagated f
    | _ => False
    end.

Definition fail_fast_then_cleanup {A} (m : M A) : Prop :=
  ∀ h t r, m h = (t, r) →
    match r with
    | Ok _ => all_returned t
    | Raise e => stops_then_cleans t e
    end.

Lemma raised_by_failed ev e : raised_by ev e → is_Some (event_failure rt ev).
Proof.
  destruct ev as [| | |cmd [out|[|name]]| | | | | | |]; cbn;
    by (intros (f & -> & _) || intros _).
Qed.

Lemma stops_then_cleans_app t1 t2 e :
  all_returned t1 → stops_then_cleans t2 e → stops_then_cleans (t1 ++ t2) e.
Proof.
  intros H1 (before & ev & cleanup & -> & ? & ? & ?).
  exists (t1 ++ before), ev, cleanup. rewrite <-app_assoc.
  split_and!; [done|by apply all_returned_app|done..].
Qed.

Lemma cleanup_of_fail_fast {A} (m : M A) :
  fail_fast raised_by m → fail_fast_then_cleanup m.
Proof.
  intros Hm h t r Hrun. specialize (Hm h t r Hrun). destruct r as [a|e]; [done|].
  destruct Hm as (before & ev & -> & ? & ?).
  exists before, ev, []. split_and!; [done..|by eapply raised_by_failed|done].
Qed.

Lemma cleanup_bind {A B} (m : M A) (f : A → M B) :
  fail_fast raised_by m → (∀ a, fail_fast_then_cleanup (f a)) →
  fail_fast_then_cleanup (m ≫= f).
Proof.
  intros Hm Hf h t r. rewrite run_bind.
  destruct (m h) as [t1 [a|e]] eqn:Hrun.
  - specialize (Hm _ _ _ Hrun).
    destruct (f a (h ++ t1)) as [t2 r2] eqn:Hrun2.
    specialize (Hf _ _ _ _ Hrun2). intros [= <- <-].
    destruct r2 as [b|e]; [by apply all_returned_app|].
    by apply stops_then_cleans_app.
  - intros [= <- <-]. apply (cleanup_of_fail_fast m Hm h _ _ Hrun).
Qed.

Lemma build_image_fail_fast (call : BuildImageCall rt) :
  fail_fast raised_by (docker_utils_build_image w call).
Proof.
  eapply fail_fast_impl; [|by apply fail_fast_perform_event].
  intros ev e (f & -> & ->). exists f. eauto.
Qed.

Lemma custom_build_fail_fast image_name custom_dockerfile
    (c : DockerConfiguration rt) :
  fail_fast raised_by (custom_build rt w image_name custom_dockerfile c).
Proof.
  unfold custom_build, docker_utils_build_image_expanding.
  eapply fail_fast_impl; [|by apply fail_fast_perform_event].
  intros ev e (f & -> & ->). exists f. eauto.
Qed.

Lemma pull_step_fail_fast parent : fail_fast raised_by (pull_step rt w parent).
Proof.
  unfold pull_step. case_bool_decide; [apply fail_fast_ret|].
  apply fail_fast_fmap.
  eapply fail_fast_impl; [|by apply fail_fast_perform_event].
  intros ev e (f & -> & ->). exists f. eauto.
Qed.

Lemma root_final_cleanup (c : DockerConfiguration rt)
    (call : option string → BuildImageCall rt) :
  fail_fast_then_cleanup
    (root ← root_step rt w c; final_build rt w c root (call root)).
Proof.
  intros h t r. rewrite run_bind, root_step_run.
  destruct (copy_files c || copy_profile c) eqn:Hcontext.
  2: { apply orb_false_iff in Hcontext as [_ Hprofile].
       rewrite final_build_run, Hprofile, !app_nil_r. cbn [app].
       intros [= <- <-].
       destruct (build_image w h (call None)) as [[]|f];
         cbn [result_of_outcome].
       - by repeat constructor.
       - eexists [], _, []. split_and!; [done|constructor|done|].
         exists f. eauto. }
  destruct (get_source_root_path w h) as [root|f].
  2: { intros [= <- <-]. eexists [], _, []. split_and!; [done|constructor|done|].
       exists f. eauto. }
  rewrite final_build_run.
  destruct (copy_profile c).
  2: { intros [= <- <-].
       destruct (build_image w _ (call (Some root))) as [[]|f];
         cbn [result_of_outcome].
       - by repeat constructor.
       - eexists [_], _, []. split_and!; [done|by repeat constructor|done|].
         exists f. eauto. }
  rewrite include_active_profile_run. cbv zeta.
  destruct (copy_active_configuration w _ _ _) as [[]|f].
  - destruct (build_image w _ (call (Some root))) as [[]|f];
      cbn [result_of_outcome];
      destruct (rmtree w _ _) as [[]|f']; intros [= <- <-].
    + by repeat constructor.
    + eexists [_; _; _], _, []. split_and!; [done|by repeat constructor|done|].
      exists f'. eauto.
    + eexists [_; _], _, [_]. split_and!; [done|by repeat constructor|done|].
      exists f. eauto.
    + eexists [_; _], _, [_]. by split_and!; [done|repeat constructor|..].
  - destruct (rmtree w _ _) as [[]|f']; intros [= <- <-].
    + eexists [_], _, [_]. split_and!; [done|by repeat constructor|done|].
      exists f. eauto.
    + eexists [_], _, [_]. by split_and!; [done|repeat constructor|..].
Qed.

Lemma synthesis_build_cleanup target parent (c : DockerConfiguration rt)
    stack entrypoint :
  fail_fast_then_cleanup (synthesis_build rt w target parent c stack entrypoint).
Proof.
  unfold synthesis_build.
  apply cleanup_bind; [apply gather_fail_fast|intros files].
  apply cleanup_bind; [apply pull_step_fail_fast|intros pull].
  apply (root_final_cleanup c
           (λ root, synthesis_call rt target parent c entrypoint files root pull)).
Qed.

(** [build_docker_image] returns only if every call it made returned. When
    it raises, either it is the [ValueError] of an insufficient
    configuration, raised before any call, or some call failed: every call
    before the first failed one returned, and after it nothing is called but
    the removal of the profile copy. The exception is the one of the failed
    call, with the export command's [CalledProcessError] turned into the
    [RuntimeError], unless the removal fails too: then it is the exception of
    the removal. *)
Theorem build_stops_at_first_failure
    self target pipeline_name (c : DockerConfiguration rt) stack entrypoint
    h t r :
  build_docker_image w self target pipeline_name c stack entrypoint h = (t, r) →
  match r with
  | Ok _ => all_returned t
  | Raise e =>
      (e = InsufficientBuildConfiguration ∧ t = []) ∨
      ∃ before ev cleanup,
        t = before ++ [ev] ++ cleanup ∧ all_returned before ∧
        is_Some (event_failure rt ev) ∧
        match cleanup with
        | [] => raised_by ev e
        | [rmtree_call _ (Returns _)] => raised_by ev e
        | [rmtree_call _ (Fails f)] => e = Propagated f
        | _ => False
        end
  end.
Proof.
  rewrite build_docker_image_stages.
  assert (∀ (m : M unit), fail_fast_then_cleanup m →
            m h = (t, r) →
            match r with
            | Ok _ => all_returned t
            | Raise e =>
                (e = InsufficientBuildConfiguration ∧ t = []) ∨
                stops_then_cleans t e
            end) as Hwrap.
  { intros m Hm Hrun. specialize (Hm _ _ _ Hrun). destruct r; [done|by right]. }
  destruct (if_truthy (dockerfile c)) as [custom_dockerfile|];
    destruct (requires_zenml_build c entrypoint).
  - apply Hwrap. apply cleanup_bind; [apply custom_build_fail_fast|].
    intros _. apply synthesis_build_cleanup.
  - apply Hwrap, cleanup_of_fail_fast, custom_build_fail_fast.
  - apply Hwrap, synthesis_build_cleanup.
  - case_bool_decide; [intros [= <- <-]; by left|].
    apply Hwrap, cleanup_of_fail_fast.
    eapply fail_fast_impl; [|by apply fail_fast_perform_event].
    intros ev e (f & -> & ->). exists f. eauto.
Qed.

(** ** The calls of [_gather_requirements_files] *)

Lemma mapM_select_log names h t per_integration :
  mapM (integration_registry_select_integration_requirements w) names h
    = (t, Ok per_integration) →
  t = zip_with (λ name reqs,
                  select_integration_requirements_call name (Returns reqs))
        names per_integration ∧
  length per_integration = length names.
Proof.
  revert h t per_integration.
  induction names as [|name names IH]; intros h t sel; simpl.
  - rewrite run_ret. by intros [= <- <-].
  - intros (t1 & reqs & t2 & H1 & H2 & ->)%bind_Ok.
    apply bind_Ok in H2 as (t3 & sel' & t4 & H3 & H4 & ->).
    rewrite run_ret in H4. injection H4 as <- <-.
    apply perform_Ok in H1 as ->. apply IH in H3 as [-> Hlen].
    rewrite app_nil_r. simpl. by rewrite Hlen.
Qed.

(** When [_gather_requirements_files] returns, it has made these calls and
    no other, in this order: the export command if
    [replicate_local_python_environment] is set; the read of the
    requirements file if [requirements] is a path; one query of the registry
    of integrations for every entry of [required_integrations], in the order
    of the list and once per entry, also for a name that occurs twice; the
    requirements of the stack if [install_stack_requirements] is set. *)
Theorem gather_calls (c : DockerConfiguration rt) stack h t files :
  _gather_requirements_files w c stack h = (t, Ok files) →
  ∃ local user per_integration stack_call,
    t = local ++ user
        ++ zip_with (λ name reqs,
                       select_integration_requirements_call name (Returns reqs))
             (required_integrations c) per_integration
        ++ stack_call ∧
    length per_integration = length (required_integrations c) ∧
    match replicate_local_python_environment c with
    | Some method =>
        ∃ out, local = [check_output_call (command method) (Returns out)]
    | None => local = []
    end ∧
    match requirements c with
    | Some (RequirementsFile path) =>
        ∃ s, user = [read_file_contents_as_string_call path (Returns s)]
    | _ => user = []
    end ∧
    if install_stack_requirements c
    then ∃ reqs, stack_call = [stack_requirements_call stack (Returns reqs)]
    else stack_call = [].
Proof.
  unfold _gather_requirements_files.
  intros (t1 & local & ta & H1 & H & ->)%bind_Ok.
  apply bind_Ok in H as (t2 & text & tb & H2 & H & ->).
  apply bind_Ok in H as (t3 & per_integration & tc & H3 & H & ->).
  apply bind_Ok in H as (t4 & U & td & H4 & H & ->).
  rewrite run_ret in H. injection H as <- <-.
  apply mapM_select_log in H3 as [-> Hlen].
  exists t1, t2, per_integration, t4. rewrite app_nil_r.
  split_and!; [done|done|..].
  - destruct (replicate_local_python_environment c) as [method|].
    + apply bind_Ok in H1 as (t5 & out & t6 & H5 & H6 & ->).
      rewrite run_ret in H6. injection H6 as <- <-.
      rewrite check_output_run in H5.
      destruct (check_output w h (command method)) as [out'|[|name]];
        simplify_eq.
      exists out. by rewrite app_nil_r.
    + rewrite run_ret in H1. by injection H1 as <- <-.
  - destruct (requirements c) as [[path|packages]|].
    + rewrite run_fmap in H2.
      unfold io_utils_read_file_contents_as_string in H2.
      rewrite run_perform in H2.
      destruct (read_file_contents_as_string w (h ++ t1) path) as [s|f];
        simplify_eq/=.
      by exists s.
    + rewrite run_ret in H2. by injection H2 as <- <-.
    + rewrite run_ret in H2. by injection H2 as <- <-.
  - destruct (install_stack_requirements c).
    + apply bind_Ok in H4 as (t5 & stack_reqs & t6 & H5 & H6 & ->).
      rewrite run_ret in H6. injection H6 as <- <-.
      apply perform_Ok in H5 as ->. by exists stack_reqs.
    + rewrite run_ret in H4. by injection H4 as <- <-.
Qed.

(** ** The branches of [build_docker_image] *)

(** [docker_configuration.copy(update=...)] for the two fields that name an
    image source *)
Definition with_sources (c : DockerConfiguration rt)
    (new_parent_image new_dockerfile : option string) : DockerConfiguration rt := {|
  parent_image := new_parent_image;
  dockerfile := new_dockerfile;
  build_context_root := build_context_root c;
  build_options := build_options c;
  target_repository := target_repository c;
  replicate_local_python_environment := replicate_local_python_environment c;
  requirements := requirements c;
  required_integrations := required_integrations c;
  install_stack_requirements := install_stack_requirements c;
  environment := environment c;
  dockerignore := dockerignore c;
  copy_files := copy_files c;
  copy_profile := copy_profile c
|}.

(** Without a Dockerfile and without anything to add to the image, a parent
    image other than the default one is used as it is: the whole run is one
    call that tags it with the target name, and the run ends as that call
    does. The parent image is the one of the configuration if that is set
    (and not empty), else the one of the builder. *)
Theorem parent_image_is_tagged
    self target pipeline_name (c : DockerConfiguration rt) stack entrypoint h :
  truthy (dockerfile c) = false →
  requires_zenml_build c entrypoint = false →
  let parent :=
    or_else (parent_image c)
      (or_else (docker_parent_image self) (DEFAULT_DOCKER_PARENT_IMAGE rt)) in
  parent ≠ DEFAULT_DOCKER_PARENT_IMAGE rt →
  build_docker_image w self target pipeline_name c stack entrypoint h =
    ([tag_image_call parent target (tag_image w h parent target)],
     result_of_outcome (tag_image w h parent target)).
Proof.
  intros Hd Hreq parent Hparent.
  rewrite build_docker_image_stages, (if_truthy_falsy _ Hd), Hreq.
  fold parent. unfold resolved_parent_image. fold parent.
  by rewrite bool_decide_false.
Qed.

(** With a Dockerfile, the parent image of the configuration and the one of
    the builder are ignored (the code only logs a warning when one is
    given): the calls and the outcome of the run are the same whatever they
    are. *)
Theorem dockerfile_overrides_parent_image
    self self' target pipeline_name (c : DockerConfiguration rt) stack
    entrypoint h custom_dockerfile other_parent :
  dockerfile c = Some custom_dockerfile → custom_dockerfile ≠ "" →
  build_docker_image w self target pipeline_name c stack entrypoint h =
  build_docker_image w self' target pipeline_name
    (with_sources c other_parent (dockerfile c)) stack entrypoint h.
Proof.
  intros Hd Hne. rewrite !build_docker_image_stages.
  cbn [with_sources dockerfile]. rewrite Hd.
  assert (if_truthy (Some custom_dockerfile) = Some custom_dockerfile) as ->
    by by apply if_truthy_Some.
  reflexivity.
Qed.

(** An empty string counts as no value: for the entrypoint, the Dockerfile,
    and the parent image of the configuration and of the builder, the run
    with [""] is the run with [None]. *)
Theorem empty_strings_are_unset
    target pipeline_name (c : DockerConfiguration rt) stack h :
  build_docker_image w {| docker_parent_image := Some "" |} target
    pipeline_name (with_sources c (Some "") (Some "")) stack (Some "") h =
  build_docker_image w {| docker_parent_image := None |} target
    pipeline_name (with_sources c None None) stack None h.
Proof. rewrite !build_docker_image_stages. reflexivity. Qed.

(** ** The phases of a build of the generated Dockerfile *)

(** The events of the [with] statement *)
Definition final_event (ev : Event) : Prop :=
  match ev with
  | build_image_call call _ => is_synthesis call = true
  | copy_active_configuration_call _ _ _ | rmtree_call _ _ => True
  | _ => False
  end.

Lemma final_build_events (c : DockerConfiguration rt) root files parent
    target entrypoint pull h t r :
  final_build rt w c root
    (synthesis_call rt target parent c entrypoint files root pull) h = (t, r) →
  Forall final_event t.
Proof.
  intros [(_ & built & -> & _)
         |[(_ & _ & -> & _)
          |(_ & root_path & copied & body & removal & _ & -> & Hbody & _)]
         ]%final_build_shape.
  - by repeat constructor.
  - constructor.
  - destruct Hbody as [[-> _]|(_ & built & -> & _)]; by repeat constructor.
Qed.

Lemma pull_step_events parent h (tl : list Event) rl :
  pull_step rt w parent h = (tl, rl) →
  tl = [] ∨ ∃ a, tl = [is_local_image_call parent a] ∧
                 parent ≠ DEFAULT_DOCKER_PARENT_IMAGE rt.
Proof.
  rewrite pull_step_run.
  case_bool_decide; intros [= <- <-]; [by left|right; eauto].
Qed.

Lemma synthesis_build_phases target parent (c : DockerConfiguration rt)
    stack entrypoint h t r :
  synthesis_build rt w target parent c stack entrypoint h = (t, r) →
  ∃ tg tl tr tw,
    t = tg ++ tl ++ tr ++ tw ∧
    Forall (gather_event rt) tg ∧
    (tl = [] ∨ ∃ a, tl = [is_local_image_call parent a] ∧
                    parent ≠ DEFAULT_DOCKER_PARENT_IMAGE rt) ∧
    (tr = [] ∨ ∃ a, tr = [get_source_root_path_call a] ∧
                    copy_files c || copy_profile c = true) ∧
    Forall final_event tw.
Proof.
  rewrite synthesis_build_run.
  destruct (_gather_requirements_files w c stack h) as [tg [files|e]] eqn:Hg;
    pose proof (gather_emits rt w c stack _ _ _ Hg) as Hev.
  2: { intros [= <- <-]. exists tg, [], [], []. rewrite !app_nil_r.
       split_and!; [done|done|by left|by left|constructor]. }
  destruct (pull_step rt w parent (h ++ tg)) as [tl [pull|e]] eqn:Hpull;
    apply pull_step_events in Hpull.
  2: { intros [= <- <-]. exists tg, tl, [], []. rewrite !app_nil_r.
       split_and!; [done|done|done|by left|constructor]. }
  rewrite root_step_run.
  destruct (copy_files c || copy_profile c) eqn:Hcontext.
  - destruct (get_source_root_path w _) as [root|f].
    + destruct (final_build _ _ _ _ _ _) as [tw rw] eqn:Hfinal.
      intros [= <- <-]. apply final_build_events in Hfinal.
      eexists tg, tl, [_], tw. split_and!; [done..|right; eauto|done].
    + intros [= <- <-]. eexists tg, tl, [_], []. rewrite !app_nil_r.
      split_and!; [done..|right; eauto|constructor].
  - destruct (final_build _ _ _ _ _ _) as [tw rw] eqn:Hfinal.
    intros [= <- <-]. apply final_build_events in Hfinal.
    exists tg, tl, [], tw. split_and!; [done..|by left|done].
Qed.

(** When the configuration requires a build of the generated Dockerfile,
    the calls of [build_docker_image] come in this order: the build of the
    custom Dockerfile under the intermediate name, if there is one; the calls
    that gather the requirements; at most one question to the Docker daemon,
    about the effective parent image and never about the default image; at
    most one call for the source root, and none unless [copy_files] or
    [copy_profile]; and then only the copy of the profile, the build of the
    generated Dockerfile and the removal of the copy. A run that raises stops
    somewhere on this way. *)
Theorem build_phases
    self target pipeline_name (c : DockerConfiguration rt) stack entrypoint
    h t r :
  build_docker_image w self target pipeline_name c stack entrypoint h = (t, r) →
  requires_zenml_build c entrypoint = true →
  let parent := effective_parent_image self pipeline_name c in
  ∃ first tg tl tr tw,
    t = first ++ tg ++ tl ++ tr ++ tw ∧
    match if_truthy (dockerfile c) with
    | Some custom_dockerfile =>
        ∃ a, first = [build_image_call
                        (custom_build_call rt
                           ("zenml-intermediate-build:" +:+ pipeline_name)
                           custom_dockerfile c) a]
    | None => first = []
    end ∧
    Forall (λ ev, match ev with
                  | check_output_call _ _
                  | read_file_contents_as_string_call _ _
                  | select_integration_requirements_call _ _
                  | stack_requirements_call _ _ => True
                  | _ => False
                  end) tg ∧
    (tl = [] ∨ ∃ a, tl = [is_local_image_call parent a] ∧
                    parent ≠ DEFAULT_DOCKER_PARENT_IMAGE rt) ∧
    (tr = [] ∨ ∃ a, tr = [get_source_root_path_call a] ∧
                    copy_files c || copy_profile c = true) ∧
    Forall (λ ev, match ev with
                  | build_image_call call _ => is_synthesis call = true
                  | copy_active_configuration_call _ _ _ | rmtree_call _ _ =>
                      True
                  | _ => False
                  end) tw.
Proof.
  intros Hrun Hreq parent. subst parent. unfold effective_parent_image.
  rewrite build_docker_image_stages, Hreq in Hrun.
  destruct (if_truthy (dockerfile c)) as [custom_dockerfile|].
  - apply custom_then_synthesis in Hrun as [(f & -> & ->)|(ts & -> & Hrun)].
    + eexists [_], [], [], [], []. split_and!; [done|by eexists|constructor
        |by left|by left|constructor].
    + apply synthesis_build_phases in Hrun
        as (tg & tl & tr & tw & -> & ? & ? & ? & ?).
      eexists [_], tg, tl, tr, tw. split_and!; [done|by eexists|done..].
  - apply synthesis_build_phases in Hrun
      as (tg & tl & tr & tw & -> & ? & ? & ? & ?).
    exists [], tg, tl, tr, tw. by split_and!.
Qed.

(** ** The arguments of the build calls *)

Lemma gathered_names (c : DockerConfiguration rt) stack t files :
  gathered rt c stack t files →
  (fst <$> files) `sublist_of`
    [".zenml_local_requirements"; ".zenml_user_requirements";
     ".zenml_integration_requirements"].
Proof.
  intros (local & text & per_integration & stack_reqs & Hlocal & _ & _ & _ & ->).
  rewrite !fmap_app.
  apply (sublist_app _ [_] _ [_; _]).
  { unfold local_slot in Hlocal.
    destruct (replicate_local_python_environment c).
    - destruct Hlocal as (out & _ & ->). done.
    - subst local. apply sublist_nil_l. }
  apply (sublist_app _ [_] _ [_]).
  - unfold user_slot. destruct text as [s|]; [destruct (truthy s)|];
      by (done || apply sublist_nil_l).
  - unfold integration_slot. destruct (truthy _);
      by (done || apply sublist_nil_l).
Qed.

Lemma final_build_call (c : DockerConfiguration rt) root call h t r call' a :
  final_build rt w c root call h = (t, r) →
  build_image_call call' a ∈ t → call' = call.
Proof.
  intros [(_ & built & -> & _)
         |[(_ & _ & -> & _)
          |(_ & root_path & copied & body & removal & _ & -> & Hbody & _)]
         ]%final_build_shape Hin.
  - apply list_elem_of_singleton in Hin. by simplify_eq.
  - by apply elem_of_nil in Hin.
  - destruct Hbody as [[-> _]|(_ & built & -> & _)];
      repeat (apply elem_of_cons in Hin as [Hin|Hin]; simplify_eq);
      try done; by apply elem_of_nil in Hin.
Qed.

Lemma synthesis_build_call target parent (c : DockerConfiguration rt)
    stack entrypoint h t r call a :
  synthesis_build rt w target parent c stack entrypoint h = (t, r) →
  build_image_call call a ∈ t →
  ∃ files root pull,
    call = synthesis_call rt target parent c entrypoint files root pull ∧
    (fst <$> files) `sublist_of`
      [".zenml_local_requirements"; ".zenml_user_requirements";
       ".zenml_integration_requirements"] ∧
    match root with
    | Some root_path =>
        copy_files c || copy_profile c = true ∧
        get_source_root_path_call (Returns root_path) ∈ t
    | None => copy_files c || copy_profile c = false
    end.
Proof.
  rewrite synthesis_build_run.
  destruct (_gather_requirements_files w c stack h) as [tg [files|e]] eqn:Hg;
    pose proof (gather_emits rt w c stack _ _ _ Hg) as Hev.
  2: { intros [= <- <-] Hin.
       by apply (proj1 (Forall_forall _ _) Hev) in Hin. }
  assert (build_image_call call a ∉ tg) as Hntg.
  { intros Hin. by apply (proj1 (Forall_forall _ _) Hev) in Hin. }
  apply gather_Ok, gathered_names in Hg.
  destruct (pull_step rt w parent (h ++ tg)) as [tl [pull|e]] eqn:Hpull;
    apply pull_step_events in Hpull.
  2: { intros [= <- <-] [?|Hin]%elem_of_app; [done|].
       destruct Hpull as [->|(? & -> & _)]; [by apply elem_of_nil in Hin|].
       by apply list_elem_of_singleton in Hin. }
  assert (build_image_call call a ∉ tl) as Hntl.
  { intros Hin.
    destruct Hpull as [->|(? & -> & _)]; [by apply elem_of_nil in Hin|].
    by apply list_elem_of_singleton in Hin. }
  rewrite root_step_run.
  destruct (copy_files c || copy_profile c) eqn:Hcontext.
  - destruct (get_source_root_path w _) as [root|f].
    + destruct (final_build _ _ _ _ _ _) as [tw rw] eqn:Hfinal.
      intros [= <- <-] Hin.
      apply elem_of_app in Hin as [?|Hin]; [done|].
      apply elem_of_app in Hin as [?|Hin]; [done|].
      apply elem_of_cons in Hin as [?|Hin]; [done|].
      eapply final_build_call in Hin as ->; [|done].
      eexists files, (Some root), pull. split_and!; [done..|].
      rewrite !elem_of_app. right; right. apply list_elem_of_here.
    + intros [= <- <-] Hin.
      apply elem_of_app in Hin as [?|Hin]; [done|].
      apply elem_of_app in Hin as [?|Hin]; [done|].
      by apply list_elem_of_singleton in Hin.
  - destruct (final_build _ _ _ _ _ _) as [tw rw] eqn:Hfinal.
    intros [= <- <-] Hin.
    apply elem_of_app in Hin as [?|Hin]; [done|].
    apply elem_of_app in Hin as [?|Hin]; [done|].
    eapply final_build_call in Hin as ->; [|done].
    by eexists files, None, pull.
Qed.

Lemma requires_zenml_build_cases (c : DockerConfiguration rt) entrypoint :
  requires_zenml_build c entrypoint = true →
  truthy (requirements c) = true ∨ required_integrations c ≠ [] ∨
  is_Some (replicate_local_python_environment c) ∨
  install_stack_requirements c = true ∨ environment c ≠ [] ∨
  copy_files c = true ∨ copy_profile c = true ∨ truthy entrypoint = true.
Proof.
  unfold requires_zenml_build, any. cbn [foldr].
  destruct (truthy (requirements c)); [by left|].
  destruct (required_integrations c); [|by right; left].
  destruct (replicate_local_python_environment c); [by right; right; left; eauto|].
  destruct (install_stack_requirements c); [by do 3 right; left|].
  destruct (environment c); [|by do 4 right; left].
  destruct (copy_files c); [by do 5 right; left|].
  destruct (copy_profile c); [by do 6 right; left|].
  destruct (truthy entrypoint); [by do 7 right|done].
Qed.

(** Every build call of a run of [build_docker_image] is one of two kinds.
    The build of the custom Dockerfile passes, besides its name, the path of
    the Dockerfile and the build context of the configuration, exactly the
    build options of the configuration as further keywords, so that an
    ignore file, extra files or a pull flag are passed if and only if the
    build options hold them; if the build options hold one of the three
    keywords that the call passes by name, the call fails with [TypeError].
    Its name is the target name if none of the eight conditions holds and
    the intermediate name if one does. The build of the generated Dockerfile
    takes one of the eight conditions and is under the target name; besides
    name, Dockerfile and build context it passes the ignore file of the
    configuration, the requirements files as extra files and the pull flag,
    and no build option; the requirements files that its Dockerfile copies
    and installs are exactly the extra files, at most the three fixed names
    in their order; and its build context is the source root that
    [source_utils] returned if [copy_files] or [copy_profile] is set, and
    [None] if not, whatever [build_context_root] the configuration gives. *)
Theorem build_call_arguments
    self target pipeline_name (c : DockerConfiguration rt) stack entrypoint
    h t r call a :
  build_docker_image w self target pipeline_name c stack entrypoint h = (t, r) →
  build_image_call call a ∈ t →
  let one_holds :=
    truthy (requirements c) = true ∨ required_integrations c ≠ [] ∨
    is_Some (replicate_local_python_environment c) ∨
    install_stack_requirements c = true ∨ environment c ≠ [] ∨
    copy_files c = true ∨ copy_profile c = true ∨ truthy entrypoint = true in
  match call_dockerfile call with
  | DockerfilePath path =>
      dockerfile c = Some path ∧
      (one_holds →
       call_image_name call = "zenml-intermediate-build:" +:+ pipeline_name) ∧
      (¬ one_holds → call_image_name call = target) ∧
      call_build_context_root call = build_context_root c ∧
      call_keywords call = (λ kv, (kv.1, VAny kv.2)) <$> build_options c ∧
      (Exists (λ kv, kv.1 ∈ ["image_name"; "dockerfile"; "build_context_root"])
         (build_options c) →
       a = Fails (OtherError "TypeError"))
  | DockerfileLines lines =>
      one_holds ∧
      call_image_name call = target ∧
      (∃ files pull,
         call_keywords call =
           [("dockerignore", optional_str (dockerignore c));
            ("extra_files", VFiles files); ("pull", VBool pull)] ∧
         lines = _generate_zenml_pipeline_dockerfile
                   (effective_parent_image self pipeline_name c) c
                   (fst <$> files) entrypoint ∧
         (fst <$> files) `sublist_of`
           [".zenml_local_requirements"; ".zenml_user_requirements";
            ".zenml_integration_requirements"]) ∧
      match call_build_context_root call with
      | Some root =>
          copy_files c || copy_profile c = true ∧
          get_source_root_path_call (Returns root) ∈ t
      | None => copy_files c || copy_profile c = false
      end
  end.
Proof.
  intros Hrun Hin one_holds. unfold effective_parent_image.
  rewrite build_docker_image_stages in Hrun.
  assert (∀ parent first ts,
            synthesis_build rt w target parent c stack entrypoint (h ++ first)
              = (ts, r) →
            build_image_call call a ∈ ts →
            ∃ files root pull,
              call = synthesis_call rt target parent c entrypoint files root pull ∧
              (fst <$> files) `sublist_of`
                [".zenml_local_requirements"; ".zenml_user_requirements";
                 ".zenml_integration_requirements"] ∧
              match root with
              | Some root_path =>
                  copy_files c || copy_profile c = true ∧
                  get_source_root_path_call (Returns root_path) ∈ first ++ ts
              | None => copy_files c || copy_profile c = false
              end) as Hsynthesis.
  { intros parent first ts Hs Hts.
    destruct (synthesis_build_call _ _ _ _ _ _ _ _ _ _ Hs Hts)
      as (files & root & pull & -> & ? & Hroot).
    exists files, root, pull. split_and!; [done..|].
    destruct root; [|done]. destruct Hroot. split; [done|].
    apply elem_of_app. by right. }
  assert (∀ image_name custom_dockerfile,
            Exists (λ kv, kv.1 ∈ ["image_name"; "dockerfile";
                                  "build_context_root"]) (build_options c) →
            custom_build_answer rt w h image_name custom_dockerfile c
            = Fails (OtherError "TypeError")) as Hrepeat.
  { intros image_name custom_dockerfile Hex. unfold custom_build_answer.
    unfold repeats_keyword. by rewrite bool_decide_true. }
  destruct (if_truthy (dockerfile c)) as [custom_dockerfile|] eqn:Hd;
    destruct (requires_zenml_build c entrypoint) eqn:Hreq.
  - apply if_truthy_Some in Hd as [Hd _].
    pose proof (requires_zenml_build_cases _ _ Hreq) as Hone.
    rewrite run_bind, custom_build_run in Hrun.
    destruct (custom_build_answer _ _ _ _ _ _) as [[]|f] eqn:Hanswer;
      cbn [result_of_outcome] in Hrun.
    + destruct (synthesis_build _ _ _ _ _ _ _ _) as [ts rs] eqn:Hs.
      injection Hrun as <- <-.
      apply elem_of_cons in Hin as [Hin|Hin].
      * simplify_eq. cbn. split_and!; try done.
        intros Hex. by rewrite Hrepeat in Hanswer.
      * destruct (Hsynthesis _ [_] _ Hs Hin)
          as (files & root & pull & -> & ? & Hroot).
        cbn. split_and!; [done|done|by eauto|by destruct root].
    + injection Hrun as <- <-. apply list_elem_of_singleton in Hin.
      simplify_eq. cbn. split_and!; try done.
      intros Hex. by rewrite Hrepeat in Hanswer.
  - apply if_truthy_Some in Hd as [Hd _].
    rewrite custom_build_run in Hrun.
    injection Hrun as <- <-. apply list_elem_of_singleton in Hin.
    simplify_eq. cbn. split_and!; try done.
    + intros Hone%requires_zenml_build_true. congruence.
    + apply Hrepeat.
  - pose proof (requires_zenml_build_cases _ _ Hreq) as Hone.
    rewrite <-(app_nil_r h) in Hrun.
    destruct (Hsynthesis _ [] _ Hrun Hin)
      as (files & root & pull & -> & ? & Hroot).
    cbn. split_and!; [done|done|by eauto|by destruct root].
  - case_bool_decide.
    + injection Hrun as <- <-. by apply elem_of_nil in Hin.
    + unfold docker_utils_tag_image in Hrun. rewrite run_perform in Hrun.
      injection Hrun as <- <-. by apply list_elem_of_singleton in Hin.
Qed.

(** ** What a run that returns has done *)

Lemma result_of_outcome_Ok (built : outcome ()) :
  Ok () = result_of_outcome built → built = Returns ().
Proof. by destruct built as [[]|]. Qed.

Lemma result_of_outcome_returned (built : outcome ()) :
  result_of_outcome built = Ok () → built = Returns ().
Proof. by destruct built as [[]|]. Qed.

Lemma synthesis_build_returns target parent (c : DockerConfiguration rt)
    stack entrypoint h t :
  synthesis_build rt w target parent c stack entrypoint h = (t, Ok ()) →
  ∃ before call after,
    t = before ++ [build_image_call call (Returns ())] ++ after ∧
    call_image_name call = target ∧ build_calls after = [].
Proof.
  intros (before & final & -> & _ & [(_ & e & ? & _)|Hfinal])%synthesis_build_split;
    [done|].
  destruct Hfinal as (files & root & pull & Hfinal & _).
  apply final_build_shape in Hfinal
    as [(_ & built & -> & ->%result_of_outcome_Ok)
       |[(_ & _ & _ & ?)
        |(_ & root_path & copied & body & removal & _ & -> & Hbody & Hret)]];
    [|done|].
  - by eexists before, _, [].
  - destruct Hbody as [(_ & f & _ & e & ?)|(-> & built & -> & Hbuilt)]; [done|].
    specialize (Hret eq_refl). subst removal.
    apply result_of_outcome_Ok in Hbuilt as ->; [|done].
    eexists (before ++ [_]), _, [_]. by rewrite <-!app_assoc.
Qed.

Lemma build_docker_image_returned
    self target pipeline_name (c : DockerConfiguration rt) stack entrypoint
    h t :
  build_docker_image w self target pipeline_name c stack entrypoint h
    = (t, Ok ()) →
  (∃ parent, t = [tag_image_call parent target (Returns ())]) ∨
  (∃ before call after,
     t = before ++ [build_image_call call (Returns ())] ++ after ∧
     call_image_name call = target ∧ build_calls after = []).
Proof.
  rewrite build_docker_image_stages.
  destruct (if_truthy (dockerfile c)) as [custom_dockerfile|];
    destruct (requires_zenml_build c entrypoint).
  - intros [(f & _ & ?)|(ts & -> & Hrun)]%custom_then_synthesis; [done|].
    apply synthesis_build_returns in Hrun
      as (before & call & after & -> & ? & ?).
    right. by eexists (_ :: before), call, after.
  - rewrite custom_build_run.
    intros [= <- ->%result_of_outcome_returned]. right. by eexists [], _, [].
  - intros Hrun. right. by apply synthesis_build_returns in Hrun.
  - case_bool_decide; [done|].
    unfold docker_utils_tag_image. rewrite run_perform.
    intros [= <- Htag]. left. eexists.
    by destruct (tag_image w h _ target) as [[]|].
Qed.

(** When [build_docker_image] returns, the target name stands for an image:
    either the run was a single call that tagged the parent image with the
    target name and returned, or the last build call of the run was under
    the target name and returned. *)
Theorem returned_build_names_target
    self target pipeline_name (c : DockerConfiguration rt) stack entrypoint
    h t :
  build_docker_image w self target pipeline_name c stack entrypoint h
    = (t, Ok ()) →
  (∃ parent, t = [tag_image_call parent target (Returns ())]) ∨
  (∃ before call after,
     t = before ++ [build_image_call call (Returns ())] ++ after ∧
     call_image_name call = target ∧ build_calls after = []).
Proof. apply build_docker_image_returned. Qed.

(** ** Build and push *)

Lemma build_docker_image_raised
    self target pipeline_name (c : DockerConfiguration rt) stack entrypoint
    h t e :
  build_docker_image w self target pipeline_name c stack entrypoint h
    = (t, Raise e) →
  (e = InsufficientBuildConfiguration ∧ t = []) ∨ some_call_failed rt t.
Proof.
  rewrite build_docker_image_stages.
  destruct (if_truthy (dockerfile c)) as [custom_dockerfile|];
    destruct (requires_zenml_build c entrypoint).
  - intros [(f & -> & _)|(ts & -> & Hrun)]%custom_then_synthesis; right.
    + eexists _, f. split; [apply list_elem_of_here|done].
    + apply synthesis_build_error in Hrun as [_ ?].
      by apply (failed_app_r rt [_]).
  - rewrite custom_build_run.
    destruct (custom_build_answer _ _ _ _ _ _) as [[]|f]; intros [= <- <-].
    right. eexists _, f. split; [apply list_elem_of_here|done].
  - intros Hrun. right. by apply synthesis_build_error in Hrun as [_ ?].
  - case_bool_decide; [intros [= <- <-]; by left|].
    unfold docker_utils_tag_image. rewrite run_perform.
    destruct (tag_image w _ _ _) as [[]|f]; intros [= <- <-].
    right. eexists _, f. split; [apply list_elem_of_here|done].
Qed.

(** C8, as the code has it. [build_and_push_docker_image] raises its own
    [RuntimeError] if and only if the stack has no container registry, and
    then it has called no collaborator and left the run record as it was.
    With a registry, it runs [build_docker_image] for the target name
    [{registry.uri}/{target_repository}:{pipeline_name}]. That run may
    raise, the [ValueError] of an insufficient configuration before any call
    or the exception of a failed call: the exception is passed on, nothing
    is pushed and the run record is left as it was. If the run returns, it
    has tagged the parent image with the target name, or its last build call
    was under the target name and returned; then the target name is pushed,
    once and as the last call: when the registry reports a digest, the run
    record holds the digest under ["docker_image"], is unchanged elsewhere,
    and the digest is returned; when the push raises, the exception is
    passed on and the run record is left as it was. *)
Theorem build_and_push
    self pipeline_name (c : DockerConfiguration rt) stack
    (record : gmap string (Any rt)) entrypoint h :
  let '(t, record', r) :=
    build_and_push_docker_image w self pipeline_name c stack record
      entrypoint h in
  match container_registry stack with
  | None =>
      t = [] ∧ record' = record ∧
      r = Raise (NoContainerRegistry (stack_name stack))
  | Some registry =>
      let target :=
        uri registry +:+ "/" +:+ target_repository c +:+ ":" +:+ pipeline_name in
      (∀ name, r ≠ Raise (NoContainerRegistry name)) ∧
      ∃ tb rb,
        build_docker_image w self target pipeline_name c stack entrypoint h
          = (tb, rb) ∧
        push_calls tb = [] ∧
        match rb with
        | Raise e =>
            t = tb ∧ r = Raise e ∧ record' = record ∧
            ((e = InsufficientBuildConfiguration ∧ tb = []) ∨
             some_call_failed rt tb)
        | Ok _ =>
            ((∃ parent, tb = [tag_image_call parent target (Returns ())]) ∨
             (∃ before call after,
                tb = before ++ [build_image_call call (Returns ())] ++ after ∧
                call_image_name call = target ∧ build_calls after = [])) ∧
            ∃ pushed,
              t = tb ++ [push_image_call registry target pushed] ∧
              match pushed with
              | Returns digest =>
                  r = Ok digest ∧
                  record' = <["docker_image" := str_to_any rt digest]> record ∧
                  record' !! "docker_image" = Some (str_to_any rt digest) ∧
                  ∀ key, key ≠ "docker_image" →
                         record' !! key = record !! key
              | Fails f => r = Raise (Propagated f) ∧ record' = record
              end
        end
  end.
Proof.
  unfold build_and_push_docker_image.
  destruct (container_registry stack) as [registry|] eqn:Hreg; [|done].
  cbv zeta.
  destruct (build_docker_image _ _ _ _ _ _ _ _) as [tb [[]|e]] eqn:Hbuild.
  - pose proof (build_docker_image_pushes_nothing _ _ _ _ _ _ _ _ _ _ _ Hbuild)
      as Hnopush.
    pose proof (build_docker_image_returned _ _ _ _ _ _ _ _ Hbuild) as Hdone.
    unfold ContainerRegistry_push_image. rewrite run_perform.
    destruct (push_image w _ _ _) as [digest|f] eqn:Hpush;
      cbn [result_of_outcome].
    + split; [done|]. exists tb, (Ok ()). split_and!; [done..|].
      eexists. split; [done|].
      split_and!; [done|done|by rewrite lookup_insert_eq|].
      intros key Hkey. by rewrite lookup_insert_ne.
    + split; [done|]. exists tb, (Ok ()). split_and!; [done..|].
      by eexists.
  - split.
    + intros name [= ->].
      apply build_docker_image_error in Hbuild as [?|[?|[f ?]]]; done.
    + exists tb, (Raise e). split_and!; try done.
      * by eapply build_docker_image_pushes_nothing.
      * by eapply build_docker_image_raised.
Qed.

End Further.

(** * The further properties on concrete runs *)

(** [bare], with an integration that the registry does not know between two
    that it knows *)
Definition unknown_integration : DockerConfiguration cpython := {|
  parent_image := None;
  dockerfile := None;
  build_context_root := None;
  build_options := [];
  target_repository := "zenml";
  replicate_local_python_environment := None;
  requirements := None;
  required_integrations := ["kubernetes"; "sklearn"; "airflow"];
  install_stack_requirements := true;
  environment := [];
  dockerignore := None;
  copy_files := false;
  copy_profile := false
|}.

(** [bare], with a parent image *)
Definition parent_only : DockerConfiguration cpython := {|
  parent_image := Some "python:3.8";
  dockerfile := None;
  build_context_root := None;
  build_options := [];
  target_repository := "zenml";
  replicate_local_python_environment := None;
  requirements := None;
  required_integrations := [];
  install_stack_requirements := false;
  environment := [];
  dockerignore := None;
  copy_files := false;
  copy_profile := false
|}.

(** The registry is asked about [kubernetes] and about [sklearn], which it
    does not know, and no more about [airflow]. *)
Lemma gather_stops_at_first_failure_witness :
  let run := _gather_requirements_files calm unknown_integration local_stack [] in
  ∃ before ev,
    run.1 = before ++ [ev] ∧ all_returned cpython before ∧
    match ev with
    | check_output_call _ (Fails CalledProcessError) =>
        Propagated (OtherError "KeyError") = UnableToExportLocalPackages
    | _ => ∃ f, event_failure cpython ev = Some f ∧
                Propagated (OtherError "KeyError") = Propagated f
    end.
Proof.
  intros run.
  exact (gather_stops_at_first_failure cpython calm unknown_integration
           local_stack [] run.1 run.2 eq_refl).
Defined.

(** The build of the generated Dockerfile fails; the copy of the profile is
    removed and nothing else happens. *)
Lemma build_stops_at_first_failure_witness :
  let run := build_docker_image failing_build builder "localhost:5000/zenml:p"
               "p" (DockerConfiguration_default cpython) local_stack None [] in
  let e := Propagated (OtherError "BuildError") in
  (e = InsufficientBuildConfiguration ∧ run.1 = []) ∨
  ∃ before ev cleanup,
    run.1 = before ++ [ev] ++ cleanup ∧ all_returned cpython before ∧
    is_Some (event_failure cpython ev) ∧
    match cleanup with
    | [] => raised_by cpython ev e
    | [rmtree_call _ (Returns _)] => raised_by cpython ev e
    | [rmtree_call _ (Fails f)] => e = Propagated f
    | _ => False
    end.
Proof.
  intros run e.
  exact (build_stops_at_first_failure cpython failing_build builder
           "localhost:5000/zenml:p" "p" (DockerConfiguration_default cpython)
           local_stack None [] run.1 run.2 eq_refl).
Defined.

(** Two integrations, a list of user requirements and the stack: two
    queries of the registry and the requirements of the stack. *)
Lemma gather_calls_witness :
  let c := two_integrations in
  let run := _gather_requirements_files calm c local_stack [] in
  ∃ local user per_integration stack_call,
    run.1 = local ++ user
        ++ zip_with (λ name reqs,
                       select_integration_requirements_call name (Returns reqs))
             ["kubernetes"; "airflow"] per_integration
        ++ stack_call ∧
    length per_integration = 2 ∧
    local = [] ∧ user = [] ∧
    ∃ reqs, stack_call = [stack_requirements_call local_stack (Returns reqs)].
Proof.
  intros c run.
  exact (gather_calls cpython calm c local_stack [] run.1
           (match run.2 with Ok files => files | Raise _ => [] end) eq_refl).
Defined.

(** A parent image and nothing to add to it: one tag call. *)
Lemma parent_image_is_tagged_witness :
  build_docker_image calm builder "localhost:5000/zenml:p" "p" parent_only
    local_stack None []
  = ([tag_image_call "python:3.8" "localhost:5000/zenml:p" (Returns ())],
     Ok ()).
Proof.
  apply (parent_image_is_tagged cpython calm builder "localhost:5000/zenml:p"
           "p" parent_only local_stack None []); done.
Defined.

(** A custom Dockerfile: a parent image on the configuration and another
    one on the builder change nothing. *)
Lemma dockerfile_overrides_parent_image_witness :
  build_docker_image calm builder "localhost:5000/zenml:p" "p" custom_with_env
    local_stack None []
  = build_docker_image calm {| docker_parent_image := Some "ubuntu:22.04" |}
      "localhost:5000/zenml:p" "p"
      (with_sources cpython custom_with_env (Some "python:3.8")
         (Some "Dockerfile.custom"))
      local_stack None [].
Proof.
  apply (dockerfile_overrides_parent_image cpython calm builder
           {| docker_parent_image := Some "ubuntu:22.04" |}
           "localhost:5000/zenml:p" "p" custom_with_env local_stack None []
           "Dockerfile.custom" (Some "python:3.8")); done.
Defined.

(** A custom Dockerfile and an environment variable: the custom build, no
    requirements, the question about the intermediate image, no source root,
    the build of the generated Dockerfile. *)
Lemma build_phases_witness :
  let c := custom_with_env in
  let run := build_docker_image calm builder "localhost:5000/zenml:p" "p" c
               local_stack None [] in
  ∃ first tg tl tr tw,
    run.1 = first ++ tg ++ tl ++ tr ++ tw ∧
    (∃ a, first = [build_image_call
                     (custom_build_call cpython "zenml-intermediate-build:p"
                        "Dockerfile.custom" c) a]) ∧
    Forall (λ ev, match ev with
                  | check_output_call _ _
                  | read_file_contents_as_string_call _ _
                  | select_integration_requirements_call _ _
                  | stack_requirements_call _ _ => True
                  | _ => False
                  end) tg ∧
    (tl = [] ∨ ∃ a, tl = [is_local_image_call "zenml-intermediate-build:p" a] ∧
                    "zenml-intermediate-build:p"
                      ≠ DEFAULT_DOCKER_PARENT_IMAGE cpython) ∧
    (tr = [] ∨ ∃ a, tr = [get_source_root_path_call a] ∧ false = true) ∧
    Forall (λ ev, match ev with
                  | build_image_call call _ => is_synthesis call = true
                  | copy_active_configuration_call _ _ _ | rmtree_call _ _ =>
                      True
                  | _ => False
                  end) tw.
Proof.
  intros c run.
  exact (build_phases cpython calm builder "localhost:5000/zenml:p" "p" c
           local_stack None [] run.1 run.2 eq_refl eq_refl).
Defined.

(** A custom Dockerfile whose build options hold a pull flag *)
Definition custom_with_pull_option : DockerConfiguration cpython := {|
  parent_image := None;
  dockerfile := Some "Dockerfile.custom";
  build_context_root := Some "docker";
  build_options := [("pull", "True" : Any cpython)];
  target_repository := "zenml";
  replicate_local_python_environment := None;
  requirements := None;
  required_integrations := [];
  install_stack_requirements := false;
  environment := [];
  dockerignore := None;
  copy_files := false;
  copy_profile := false
|}.

(** The build of the custom Dockerfile passes the pull flag of the build
    options. *)
Lemma build_call_arguments_witness :
  let c := custom_with_pull_option in
  let call := custom_build_call cpython "localhost:5000/zenml:p"
                "Dockerfile.custom" c in
  let one_holds :=
    truthy (requirements c) = true ∨ required_integrations c ≠ [] ∨
    is_Some (replicate_local_python_environment c) ∨
    install_stack_requirements c = true ∨ environment c ≠ [] ∨
    copy_files c = true ∨ copy_profile c = true ∨
    truthy (None : option string) = true in
  dockerfile c = Some "Dockerfile.custom" ∧
  (one_holds → call_image_name call = "zenml-intermediate-build:p") ∧
  (¬ one_holds → call_image_name call = "localhost:5000/zenml:p") ∧
  call_build_context_root call = Some "docker" ∧
  call_keywords call = [("pull", VAny ("True" : Any cpython))] ∧
  (Exists (λ kv, kv.1 ∈ ["image_name"; "dockerfile"; "build_context_root"])
     (build_options c) →
   Returns () = Fails (OtherError "TypeError")).
Proof.
  intros c call one_holds.
  refine (build_call_arguments cpython calm builder "localhost:5000/zenml:p"
            "p" c local_stack None []
            [build_image_call call (Returns ())] (Ok ()) call (Returns ())
            eq_refl _).
  apply list_elem_of_here.
Defined.

(** A custom Dockerfile alone: its build is under the target name. *)
Lemma returned_build_names_target_witness :
  let run := build_docker_image calm builder "localhost:5000/zenml:p" "p"
               custom_only local_stack None [] in
  (∃ parent, run.1 = [tag_image_call parent "localhost:5000/zenml:p"
                        (Returns ())]) ∨
  (∃ before call after,
     run.1 = before ++ [build_image_call call (Returns ())] ++ after ∧
     call_image_name call = "localhost:5000/zenml:p" ∧
     build_calls after = []).
Proof.
  intros run.
  exact (returned_build_names_target cpython calm builder
           "localhost:5000/zenml:p" "p" custom_only local_stack None [] run.1
           eq_refl).
Defined.

(** * The log formatter

    [zenml/logger.py], which the builder logs through. [CustomFormatter.format]
    lets [logging.Formatter] format the record and then colours what the
    message quotes in backticks. The formatter of the standard library is a
    parameter. What is searched for starts and ends with a backtick, a single
    byte that is part of no other character in UTF-8, so that the search
    finds on the bytes of a string what Python finds on its characters. *)

Module Logger.

(** [zenml.enums.LoggingLevels], with the members that the module names;
    [level] below is [LoggingLevels[ZENML_LOGGING_VERBOSITY]], which the
    class body already evaluates. *)
Inductive LoggingLevels := NOTSET | ERROR | WARN | INFO | DEBUG | CRITICAL.

Global Instance LoggingLevels_eq_dec : EqDecision LoggingLevels.
Proof. solve_decision. Defined.

Definition ESC : ascii := "027"%char.

Definition grey : string := String ESC "[38;21m".
Definition pink : string := String ESC "[35m".
Definition green : string := String ESC "[32m".
Definition yellow : string := String ESC "[33;21m".
Definition red : string := String ESC "[31;21m".
Definition bold_red : string := String ESC "[31;1m".
Definition purple : string := String ESC "[1;35m".
Definition reset : string := String ESC "[0m".

Definition format_template (level : LoggingLevels) : string :=
  if bool_decide (level = DEBUG)
  then "%(asctime)s - %(name)s - %(levelname)s - %(message)s (%(" +:+
       "filename)s:%(lineno)d)"
  else "%(message)s".

(** The dictionary [COLORS]; it has no entry for [NOTSET]. *)
Definition COLORS (level : LoggingLevels) : option string :=
  match level with
  | DEBUG => Some grey
  | INFO => Some purple
  | WARN => Some yellow
  | ERROR => Some red
  | CRITICAL => Some bold_red
  | NOTSET => None
  end.

Definition backtick : ascii := "`"%char.

(** [s.startswith(p)] *)
Fixpoint startswith (p s : string) : bool :=
  match p, s with
  | "", _ => true
  | String a p', String b s' => bool_decide (a = b) && startswith p' s'
  | String _ _, "" => false
  end.

(** [re.findall] for the pattern of [format]: a backtick, as the group any
    characters but backticks, and a backtick. The matches are found from left
    to right and do not overlap, so the backticks pair up in the order in
    which they come, and a last backtick without a partner matches nothing.
    [group] is the text since the backtick that is open, if one is. *)
Fixpoint findall_from (group : option string) (s : string) : list string :=
  match s with
  | "" => []
  | String c s' =>
      if bool_decide (c = backtick) then
        match group with
        | None => findall_from (Some "") s'
        | Some quoted => quoted :: findall_from None s'
        end
      else
        match group with
        | None => findall_from None s'
        | Some quoted => findall_from (Some (quoted +:+ String c "")) s'
        end
  end.

Definition re_findall_quoted (s : string) : list string := findall_from None s.

(** [s.replace(old, new)] for an [old] that is not empty: every occurrence
    of [old] from left to right, without overlap. [skip] counts the
    characters of an occurrence that are still to be passed over. *)
Fixpoint replace_from (old new : string) (skip : nat) (s : string) : string :=
  match s with
  | "" => ""
  | String c s' =>
      match skip with
      | S skip' => replace_from old new skip' s'
      | O =>
          if startswith old s
          then new +:+ replace_from old new (String.length old - 1) s'
          else String c (replace_from old new 0 s')
      end
  end.

Definition str_replace (s old new : string) : string := replace_from old new 0 s.

Inductive Error := KeyError.

Section Format.
Context {LogRecord : Type}.
(** [logging.Formatter(fmt).format(record)] *)
Context (Formatter_format : string → LogRecord → string).

(** [CustomFormatter.format] *)
Definition format (level : LoggingLevels) (record : LogRecord)
  : Error + string :=
  match COLORS level with
  | None => inl KeyError
  | Some color =>
      let log_fmt := color +:+ format_template level +:+ reset in
      let formatted_message := Formatter_format log_fmt record in
      let quoted_groups := re_findall_quoted formatted_message in
      inr (foldl (λ formatted_message quoted,
                    str_replace formatted_message
                      ("`" +:+ quoted +:+ "`")
                      ("`" +:+ reset +:+ yellow +:+ quoted +:+ "`" +:+ color))
             formatted_message quoted_groups)
  end.

End Format.

(** ** Messages and their quoted groups *)

(** The number of backticks of a string *)
Fixpoint count_backticks (s : string) : nat :=
  match s with
  | "" => 0
  | String c s' => (if bool_decide (c = backtick) then 1 else 0) + count_backticks s'
  end.

Lemma str_app_cons c (a b : string) : String c a +:+ b = String c (a +:+ b).
Proof. reflexivity. Qed.

Lemma str_app_empty_l (a : string) : "" +:+ a = a.
Proof. reflexivity. Qed.

Lemma str_app_empty_r (a : string) : a +:+ "" = a.
Proof. induction a as [|c a IH]; [done|]. by rewrite str_app_cons, IH. Qed.

Lemma str_app_assoc (a b c : string) : (a +:+ b) +:+ c = a +:+ (b +:+ c).
Proof. induction a as [|x a IH]; [done|]. by rewrite !str_app_cons, IH. Qed.

Lemma str_length_app (a b : string) :
  String.length (a +:+ b) = String.length a + String.length b.
Proof. induction a as [|x a IH]; [done|]. rewrite str_app_cons. simpl. by rewrite IH. Qed.

Lemma count_backticks_app (a b : string) :
  count_backticks (a +:+ b) = count_backticks a + count_backticks b.
Proof.
  induction a as [|x a IH]; [done|]. rewrite str_app_cons. simpl. rewrite IH. lia.
Qed.

Lemma div2_add2 (n : nat) : (n + 2) `div` 2 = S (n `div` 2).
Proof.
  replace (n + 2) with (n + 1 * 2) by lia. rewrite Nat.div_add by done. lia.
Qed.

Lemma findall_from_length group s :
  length (findall_from group s) =
    (count_backticks s + match group with Some _ => 1 | None => 0 end) `div` 2.
Proof.
  revert group.
  induction s as [|c s IH]; intros group; cbn [findall_from count_backticks].
  - by destruct group.
  - case_bool_decide.
    + destruct group as [quoted|]; cbn [length]; rewrite IH.
      * replace (1 + count_backticks s + 1) with (count_backticks s + 0 + 2)
          by lia.
        by rewrite div2_add2.
      * f_equal. lia.
    + destruct group as [quoted|]; by rewrite IH.
Qed.

Lemma findall_from_groups group s :
  (∀ quoted, group = Some quoted → count_backticks quoted = 0) →
  Forall (λ quoted, count_backticks quoted = 0) (findall_from group s).
Proof.
  revert group. induction s as [|c s IH]; intros group Hgroup; simpl.
  - constructor.
  - case_bool_decide.
    + destruct group as [quoted|].
      * constructor; [by apply Hgroup|]. by apply IH.
      * apply IH. by intros ? [= <-].
    + destruct group as [quoted|]; [|by apply IH].
      apply IH. intros ? [= <-]. rewrite count_backticks_app. simpl.
      rewrite bool_decide_false by done. rewrite (Hgroup quoted); done.
Qed.

Lemma startswith_app (old s : string) : startswith old (old +:+ s) = true.
Proof.
  induction old as [|c old IH]; [by destruct s|].
  rewrite str_app_cons. cbn [startswith]. by rewrite bool_decide_true, IH.
Qed.

Lemma replace_skip old new (a s : string) :
  replace_from old new (String.length a) (a +:+ s) = replace_from old new 0 s.
Proof.
  induction a as [|c a IH]; [by destruct s|].
  rewrite str_app_cons. cbn [String.length replace_from]. apply IH.
Qed.

Lemma replace_occurrence c old new s :
  replace_from (String c old) new 0 (String c old +:+ s) =
  new +:+ replace_from (String c old) new 0 s.
Proof.
  rewrite str_app_cons. cbn [replace_from].
  rewrite <-str_app_cons, startswith_app.
  replace (String.length (String c old) - 1) with (String.length old)
    by (cbn [String.length]; lia).
  by rewrite replace_skip.
Qed.

Lemma replace_no_occurrence old new c s :
  startswith old (String c s) = false →
  replace_from old new 0 (String c s) = String c (replace_from old new 0 s).
Proof. intros H. cbn [replace_from]. by rewrite H. Qed.

Lemma replace_plain old new (text s : string) :
  count_backticks text = 0 →
  replace_from (String backtick old) new 0 (text +:+ s) =
  text +:+ replace_from (String backtick old) new 0 s.
Proof.
  induction text as [|c text IH]; [done|].
  cbn [count_backticks]. case_bool_decide; [done|]. intros Hcount.
  rewrite !str_app_cons, replace_no_occurrence, IH; [done..|].
  cbn [startswith]. by rewrite bool_decide_false by done.
Qed.

Lemma replace_plain_end old new (text : string) :
  count_backticks text = 0 →
  replace_from (String backtick old) new 0 text = text.
Proof.
  intros H. rewrite <-(str_app_empty_r text) at 1.
  rewrite replace_plain by done. by rewrite str_app_empty_r.
Qed.

(** The message [text1 `quoted1` text2 `quoted2` ... tail], with every
    quoted part wrapped by [wrap] *)
Definition quoted_message (wrap : string → string)
    (segments : list (string * string)) (tail : string) : string :=
  foldr (λ segment rest, segment.1 +:+ wrap segment.2 +:+ rest) tail segments.

(** A quoted part as the message has it, and as [format] colours it *)
Definition quote (quoted : string) : string := "`" +:+ quoted +:+ "`".
Definition highlight (color quoted : string) : string :=
  "`" +:+ reset +:+ yellow +:+ quoted +:+ "`" +:+ color.

(** The message in which the quoted parts in [seen] are coloured *)
Definition mixed (color : string) (seen : list string) :=
  quoted_message (λ quoted, if bool_decide (quoted ∈ seen)
                            then highlight color quoted else quote quoted).

Lemma count_backticks_cons c (s : string) :
  count_backticks (String c s) = 0 ↔ c ≠ backtick ∧ count_backticks s = 0.
Proof.
  cbn [count_backticks]. case_bool_decide; cbn [Nat.add].
  - split; [lia|by intros [? _]].
  - split; [done|by intros [_ ?]].
Qed.

Lemma startswith_quote (q x rest : string) :
  count_backticks q = 0 → count_backticks x = 0 →
  startswith (q +:+ "`") (x +:+ String backtick rest) = bool_decide (q = x).
Proof.
  revert x. induction q as [|a q IH]; intros [|c x].
  - intros _ _. rewrite !str_app_empty_l. cbn [startswith].
    by rewrite !bool_decide_true.
  - intros _ [? ?]%count_backticks_cons. rewrite str_app_empty_l, str_app_cons.
    cbn [startswith]. by rewrite !bool_decide_false by done.
  - intros [? ?]%count_backticks_cons _. rewrite str_app_empty_l, str_app_cons.
    cbn [startswith]. by rewrite !bool_decide_false by done.
  - intros [? ?]%count_backticks_cons [? ?]%count_backticks_cons.
    rewrite !str_app_cons. cbn [startswith]. rewrite IH by done.
    repeat case_bool_decide; by simplify_eq.
Qed.

Lemma startswith_quote_end (q x : string) :
  count_backticks x = 0 → startswith (q +:+ "`") x = false.
Proof.
  revert x. induction q as [|a q IH]; intros [|c x]; try done.
  - intros [? ?]%count_backticks_cons. rewrite str_app_empty_l.
    cbn [startswith]. by rewrite bool_decide_false by done.
  - intros [? ?]%count_backticks_cons. rewrite str_app_cons.
    cbn [startswith]. rewrite IH by done. apply andb_false_r.
Qed.

(** No text and no quoted part holds a backtick. *)
Definition plain_segments (segments : list (string * string)) : Prop :=
  Forall (λ segment, count_backticks segment.1 = 0 ∧
                     count_backticks segment.2 = 0) segments.

Lemma quote_eq quoted : quote quoted = String backtick (quoted +:+ "`").
Proof. reflexivity. Qed.

Lemma wrapped_head (color : string) (seen : list string) (quoted : string) :
  ∃ rest, (if bool_decide (quoted ∈ seen)
           then highlight color quoted else quote quoted)
          = String backtick rest.
Proof. case_bool_decide; eexists; reflexivity. Qed.

Lemma ESC_prefix_ne (pre text quoted : string) :
  startswith (String ESC "") pre = true →
  startswith (String ESC "") quoted = false →
  quoted ≠ pre +:+ text.
Proof.
  destruct pre as [|c pre]; [done|]. destruct quoted as [|c' quoted]; [done|].
  rewrite str_app_cons. cbn [startswith].
  repeat case_bool_decide; try done. all: intros _ _ [= ]; by simplify_eq.
Qed.

Lemma no_match_after color (seen : list string) quoted pre segments tail :
  count_backticks quoted = 0 → count_backticks pre = 0 →
  plain_segments segments → count_backticks tail = 0 →
  (pre = "" ∧ Forall (λ segment, segment.1 ≠ quoted) segments) ∨
  (startswith (String ESC "") pre = true ∧
   startswith (String ESC "") quoted = false) →
  startswith (quote quoted)
    (String backtick (pre +:+ mixed color seen segments tail)) = false.
Proof.
  intros Hq Hpre Hsegs Htail Hne.
  rewrite quote_eq. cbn [startswith]. rewrite bool_decide_true by done.
  cbn [andb]. destruct segments as [|[text quoted'] segments].
  - apply startswith_quote_end. cbn. rewrite count_backticks_app. lia.
  - apply Forall_cons in Hsegs as [[Htext _] _]. cbn [fst] in Htext.
    unfold mixed. cbn [quoted_message foldr fst snd].
    destruct (wrapped_head color seen quoted') as [rest ->].
    rewrite str_app_cons, <-str_app_assoc.
    rewrite startswith_quote; [|done|rewrite count_backticks_app; lia].
    apply bool_decide_false.
    destruct Hne as [[-> Hne]|[? ?]].
    + apply Forall_cons in Hne as [Hne _]. by rewrite str_app_empty_l.
    + by apply ESC_prefix_ne.
Qed.

Lemma count_backticks_reset_yellow (quoted : string) :
  count_backticks quoted = 0 →
  count_backticks (reset +:+ yellow +:+ quoted) = 0.
Proof. intros H. by rewrite !count_backticks_app, H. Qed.

Lemma replace_mixed color (seen : list string) quoted segments tail :
  startswith (String ESC "") color = true → count_backticks color = 0 →
  startswith (String ESC "") quoted = false → count_backticks quoted = 0 →
  plain_segments segments → count_backticks tail = 0 →
  Forall (λ segment, segment.1 ≠ quoted) (drop 1 segments) →
  str_replace (mixed color seen segments tail) (quote quoted)
    (highlight color quoted)
  = mixed color (quoted :: seen) segments tail.
Proof.
  intros Hcolor Hccolor Hquoted Hcquoted Hsegs Htail Hne.
  unfold str_replace. rewrite quote_eq.
  induction segments as [|[text quoted'] segments IH].
  { by apply replace_plain_end. }
  cbn [drop] in Hne.
  pose proof Hsegs as Hsegs'.
  apply Forall_cons in Hsegs as [[Htext Hq'] Hsegs]. cbn [fst snd] in *.
  assert (Forall (λ segment : string * string, segment.1 ≠ quoted)
            (drop 1 segments)) as Hne'.
  { destruct segments; [constructor|]. by apply Forall_cons in Hne as [_ ?]. }
  specialize (IH Hsegs Hne').
  unfold mixed in *. cbn [quoted_message foldr fst snd].
  fold (quoted_message
          (λ q, if bool_decide (q ∈ seen) then highlight color q else quote q)
          segments tail) in *.
  fold (quoted_message
          (λ q, if bool_decide (q ∈ quoted :: seen)
                then highlight color q else quote q)
          segments tail) in *.
  fold (mixed color seen segments tail) in *.
  fold (mixed color (quoted :: seen) segments tail) in *.
  rewrite replace_plain by done. f_equal.
  destruct (bool_decide (quoted' ∈ seen)) eqn:Hseen.
  - (* already highlighted *)
    apply bool_decide_eq_true in Hseen.
    rewrite bool_decide_true by (by apply list_elem_of_further).
    pose proof (count_backticks_reset_yellow _ Hq') as Hinner.
    change (highlight color quoted')
      with (String backtick
              ((reset +:+ yellow +:+ quoted') +:+ String backtick color)).
    set (inner := reset +:+ yellow +:+ quoted') in *.
    assert (startswith (String ESC "") inner = true) as Hesc by done.
    clearbody inner.
    rewrite !str_app_cons, !str_app_assoc, !str_app_cons.
    rewrite replace_no_occurrence.
    2: { cbn [startswith]. rewrite bool_decide_true by done. cbn [andb].
         rewrite startswith_quote by done.
         apply bool_decide_false. rewrite <-(str_app_empty_r inner).
         by apply ESC_prefix_ne. }
    f_equal. rewrite replace_plain by done. f_equal.
    rewrite replace_no_occurrence.
    2: { apply (no_match_after color seen quoted color segments tail);
           [done..|by right]. }
    f_equal. by rewrite replace_plain, IH.
  - apply bool_decide_eq_false in Hseen.
    destruct (decide (quoted' = quoted)) as [->|Hdiff].
    + (* highlighted now *)
      rewrite bool_decide_true by apply list_elem_of_here.
      rewrite quote_eq, replace_occurrence. by rewrite IH.
    + rewrite bool_decide_false
        by (by intros [?|?]%elem_of_cons).
      assert (∀ rest, quote quoted' +:+ rest
                      = String backtick (quoted' +:+ String backtick rest))
        as Hshape by (intros; by rewrite quote_eq, str_app_cons, str_app_assoc).
      rewrite !Hshape.
      rewrite replace_no_occurrence.
      2: { cbn [startswith]. rewrite bool_decide_true by done. cbn [andb].
           rewrite startswith_quote by done. by apply bool_decide_false. }
      f_equal. rewrite replace_plain by done. f_equal.
      rewrite replace_no_occurrence.
      2: { rewrite <-(str_app_empty_l (mixed _ _ _ _)).
           apply (no_match_after color seen quoted "" segments tail);
             [done..|left]. split; [done|].
           destruct segments as [|segment segments]; [constructor|].
           by apply Hne. }
      by rewrite IH.
Qed.

Lemma foldl_replace_mixed color (seen groups : list string) segments tail :
  startswith (String ESC "") color = true → count_backticks color = 0 →
  Forall (λ quoted, startswith (String ESC "") quoted = false ∧
                    count_backticks quoted = 0) groups →
  plain_segments segments → count_backticks tail = 0 →
  Forall (λ segment, segment.1 ∉ groups) (drop 1 segments) →
  foldl (λ formatted_message quoted,
           str_replace formatted_message (quote quoted)
             (highlight color quoted))
    (mixed color seen segments tail) groups
  = mixed color (reverse groups ++ seen) segments tail.
Proof.
  intros Hcolor Hccolor Hgroups Hsegs Htail Hne. revert seen.
  induction groups as [|quoted groups IH]; intros seen; [done|].
  apply Forall_cons in Hgroups as [[? ?] Hgroups].
  cbn [foldl]. rewrite replace_mixed; [|done..|].
  2: { eapply Forall_impl; [done|]. intros segment Hout Heq.
       apply Hout. rewrite Heq. apply list_elem_of_here. }
  rewrite IH; [|done|].
  2: { eapply Forall_impl; [done|]. intros segment Hout Hin.
       by apply Hout, list_elem_of_further. }
  by rewrite reverse_cons, <-app_assoc.
Qed.

Lemma mixed_nil color segments tail :
  mixed color [] segments tail = quoted_message quote segments tail.
Proof.
  unfold mixed, quoted_message.
  induction segments as [|segment segments IH]; [done|].
  cbn [foldr]. rewrite IH. by rewrite bool_decide_false by apply not_elem_of_nil.
Qed.

Lemma mixed_all color (seen : list string) segments tail :
  Forall (λ segment, segment.2 ∈ seen) segments →
  mixed color seen segments tail
  = quoted_message (highlight color) segments tail.
Proof.
  unfold mixed, quoted_message.
  induction 1 as [|segment segments Hin _ IH]; [done|].
  cbn [foldr]. rewrite bool_decide_true by done. by rewrite IH.
Qed.

Lemma findall_plain_None (text s : string) :
  count_backticks text = 0 →
  findall_from None (text +:+ s) = findall_from None s.
Proof.
  induction text as [|c text IH]; [done|].
  intros [? ?]%count_backticks_cons. rewrite str_app_cons. cbn [findall_from].
  rewrite bool_decide_false by done. by apply IH.
Qed.

Lemma findall_plain_Some (group text s : string) :
  count_backticks text = 0 →
  findall_from (Some group) (text +:+ s)
  = findall_from (Some (group +:+ text)) s.
Proof.
  revert group. induction text as [|c text IH]; intros group.
  { by rewrite str_app_empty_r. }
  intros [? ?]%count_backticks_cons. rewrite str_app_cons. cbn [findall_from].
  rewrite bool_decide_false by done. rewrite IH by done.
  by rewrite str_app_assoc.
Qed.

Lemma findall_plain_end (tail : string) :
  count_backticks tail = 0 → findall_from None tail = [].
Proof.
  intros H. rewrite <-(str_app_empty_r tail). by rewrite findall_plain_None.
Qed.

Lemma findall_quoted_message segments tail :
  plain_segments segments → count_backticks tail = 0 →
  re_findall_quoted (quoted_message quote segments tail) = snd <$> segments.
Proof.
  intros Hsegs Htail. unfold re_findall_quoted, quoted_message.
  induction Hsegs as [|[text quoted] segments [Htext Hquoted] _ IH].
  { by apply findall_plain_end. }
  cbn [foldr fst snd] in *.
  rewrite findall_plain_None by done.
  rewrite quote_eq, str_app_cons. cbn [findall_from].
  rewrite bool_decide_true by done.
  rewrite str_app_assoc, findall_plain_Some by done.
  rewrite str_app_cons. cbn [findall_from]. rewrite bool_decide_true by done.
  rewrite !str_app_empty_l. by rewrite IH.
Qed.

Lemma COLORS_escape level color :
  COLORS level = Some color →
  startswith (String ESC "") color = true ∧ count_backticks color = 0.
Proof. by destruct level; intros [= <-]. Qed.

Section FormatProperties.
Context {LogRecord : Type} (Formatter_format : string → LogRecord → string).

(** [re.findall] with the pattern of [format] returns one group for every
    two backticks of the string, a last backtick without a partner giving
    none: half the number of backticks, rounded down; and no group holds a
    backtick. *)
Theorem re_findall_quoted_groups (s : string) :
  length (re_findall_quoted s) = count_backticks s `div` 2 ∧
  Forall (λ quoted, count_backticks quoted = 0) (re_findall_quoted s).
Proof.
  split.
  - unfold re_findall_quoted. rewrite findall_from_length. f_equal. lia.
  - by apply findall_from_groups.
Qed.

(** [format] colours every quoted part. Let the formatter of the standard
    library return [text1 `quoted1` text2 `quoted2` ... tail], where no text,
    no quoted part and not the tail holds a backtick, no quoted part starts
    with the escape character, and no text between two quoted parts is
    itself one of the quoted parts. Then [format] returns the same message
    with every [`quoted`] replaced by a backtick, the reset code, yellow,
    the quoted part, a backtick and the colour of the level, also where a
    part is quoted more than once. With no quoted part the message is
    returned as it is. *)
Theorem format_highlights level color record segments tail :
  COLORS level = Some color →
  Formatter_format (color +:+ format_template level +:+ reset) record
    = quoted_message (λ quoted, "`" +:+ quoted +:+ "`") segments tail →
  Forall (λ segment, count_backticks segment.1 = 0 ∧
                     count_backticks segment.2 = 0 ∧
                     startswith (String ESC "") segment.2 = false) segments →
  count_backticks tail = 0 →
  Forall (λ segment, segment.1 ∉ snd <$> segments) (drop 1 segments) →
  format Formatter_format level record
  = inr (quoted_message
           (λ quoted, "`" +:+ reset +:+ yellow +:+ quoted +:+ "`" +:+ color)
           segments tail).
Proof.
  intros Hlevel Hmessage Hsegs Htail Hne.
  unfold format. rewrite Hlevel. cbv zeta. rewrite Hmessage. f_equal.
  apply COLORS_escape in Hlevel as [Hcolor Hccolor].
  assert (plain_segments segments) as Hplain.
  { eapply Forall_impl; [exact Hsegs|]. by intros segment (? & ? & ?). }
  fold quote. fold (highlight color).
  rewrite findall_quoted_message by done.
  rewrite <-(mixed_nil color).
  rewrite (foldl_replace_mixed color [] (snd <$> segments)); try done.
  2: { apply Forall_fmap. eapply Forall_impl; [exact Hsegs|].
       by intros segment (? & ? & ?). }
  apply mixed_all. apply Forall_forall. intros segment Hin.
  rewrite app_nil_r, elem_of_reverse. by apply list_elem_of_fmap_2.
Qed.

(** [COLORS] has no entry for [NOTSET]: at that level, and at no other,
    [format] raises [KeyError], whatever the record. *)
Theorem format_KeyError level record :
  format Formatter_format level record = inl KeyError ↔ level = NOTSET.
Proof. unfold format. by destruct level. Qed.

End FormatProperties.

(** A formatter for the template [%(message)s]: the format with the
    message in the place of the template *)
Definition message_only (color : string) (fmt : string) (record : string)
  : string :=
  color +:+ record +:+ reset.

(** At [INFO], a message that quotes an image and a pipeline. *)
Lemma format_highlights_witness :
  format (message_only purple) INFO
    "Building image `zenml:p` for pipeline `p`."
  = inr (purple +:+ "Building image `" +:+ reset +:+ yellow +:+ "zenml:p`"
         +:+ purple +:+ " for pipeline `" +:+ reset +:+ yellow +:+ "p`"
         +:+ purple +:+ "." +:+ reset).
Proof.
  apply (format_highlights (message_only purple) INFO purple
           "Building image `zenml:p` for pipeline `p`."
           [(purple +:+ "Building image ", "zenml:p"); (" for pipeline ", "p")]
           ("." +:+ reset)).
  - reflexivity.
  - reflexivity.
  - by repeat constructor.
  - reflexivity.
  - repeat constructor. cbn. apply (bool_decide_unpack _). by vm_compute.
Defined.

End Logger.
